(** * The robot-arm control process and its handle

    A shallow embedding of [RTDEInterpolationController]
    (diffusion_policy/real_world/rtde_interpolation_controller.py): the
    constructor, the launch and stop methods, the two command methods and the
    [run] loop of the control process, together with the properties of the
    design document that can be decided on them.

    Python floats are idealised as exact rationals ([Q]); a 6-vector is a list
    of rationals.  The two execution contexts (orchestrator and control
    process) are interleaved at the granularity of whole method calls and whole
    loop iterations; the exit of a control process whose [run] is over is a
    step of its own, which a launch may see before or after it has looked at
    the process. *)

From Stdlib Require Import QArith Lqa.
From stdpp Require Import gmap strings list fin_maps.

Set Default Proof Using "Type".
Local Open Scope string_scope.

(** ** Data *)

(** A pose / joint vector: [np.ndarray] of float64. *)
Abbreviation Pose := (list Q).

(** class Command(enum.Enum) *)
Module Command.
Inductive t := STOP | SERVOL | SCHEDULE_WAYPOINT.

Definition value (c : t) : Z :=
  match c with
  | STOP => 0
  | SERVOL => 1
  | SCHEDULE_WAYPOINT => 2
  end.
End Command.

(** One slot of the input queue; the schema is the [example] dict of
    [__init__]: cmd, target_pose, duration, target_time. *)
Record Entry := mkEntry {
  e_cmd : Z;
  e_target_pose : Pose;
  e_duration : Q;
  e_target_time : Q
}.

(** A message handed to [input_queue.put]: a dict that carries [cmd] and a
    subset of the other keys. *)
Record Message := mkMessage {
  m_cmd : Z;
  m_target_pose : option Pose;
  m_duration : option Q;
  m_target_time : option Q
}.

(** Keys a message does not carry keep what the slot held before. *)
Definition fill (old : Entry) (m : Message) : Entry :=
  {| e_cmd := m_cmd m;
     e_target_pose := default (e_target_pose old) (m_target_pose m);
     e_duration := default (e_duration old) (m_duration m);
     e_target_time := default (e_target_time old) (m_target_time m) |}.

(** The columns of the dict that [get_all] returns. *)
Inductive Array :=
  | ArrInt (xs : list Z)
  | ArrFloat (xs : list Q)
  | ArrPose (xs : list Pose).

(** One published state: the receive keys and [robot_receive_timestamp]. *)
Record Snapshot := mkSnapshot {
  channels : gmap string Pose;
  robot_receive_timestamp : Q
}.

(** Python exceptions that occur in the module. *)
Inductive exn :=
  | NameError (name : string)
  | AssertionError
  | ZeroDivisionError
  | KeyError (key : string)
  | IndexError
  | TypeError
  | Empty
  | Full
  | ClientError (msg : string)
  | SystemExit (code : Z)
  | KeyboardInterrupt.

(** [except Exception] catches everything but the [BaseException]-only
    classes. *)
Definition is_Exception (e : exn) : bool :=
  match e with
  | SystemExit _ | KeyboardInterrupt => false
  | _ => true
  end.

(** str(e) for the exceptions of the controller, whose only IndexError is
    that of index 0 of an empty array. *)
Definition exn_str (e : exn) : string :=
  match e with
  | NameError x => "name '" ++ x ++ "' is not defined"
  | KeyError k => "'" ++ k ++ "'"
  | IndexError => "index 0 is out of bounds for axis 0 with size 0"
  | ZeroDivisionError => "float division by zero"
  | ClientError msg => msg
  | SystemExit _ => "exit"
  | _ => EmptyString
  end.

(** Locals of [run] that live across loop iterations. *)
Record Locals := mkLocals {
  dt : Q;
  target_pose : Pose;
  curr_t : Q;
  last_waypoint_time : Q;
  iter_idx : nat;
  keep_running : bool
}.

(** The control process as the orchestrator sees it: not started, alive
    (with the loop's locals once the loop has been entered), or exited
    (with the exception that escaped [run], if any). *)
Inductive ProcStatus :=
  | NotStarted
  | Running (l : option Locals)
  | Exited (e : option exn).

Inductive NetEvent := Connect (ip : string) (port : Z).

(** The moment at which a control process whose [run] is over leaves the
    process table, relative to the launcher's look at it. *)
Inductive ExitTiming := ExitsFirst | ExitsLater.

(** What both contexts can observe or change. *)
Record St := mkSt {
  clock : Q;                      (* time.monotonic() *)
  input_queue : list Entry;       (* pending commands, oldest first *)
  n_put : nat;                    (* puts so far *)
  ring_buffer : list Snapshot;    (* published snapshots, oldest first *)
  ready_event : bool;             (* mp.Event *)
  n_calls : nat;                  (* calls made on elephant_client *)
  sent : list (Pose * Z);         (* write_angles(pose, speed) accepted *)
  wakes : list Q;                 (* times at which time.sleep returned *)
  stdout : list string;           (* printed lines *)
  net : list NetEvent;            (* client connections opened *)
  proc : ProcStatus
}.

Definition set_clock (f : Q → Q) (s : St) : St :=
  mkSt (f (clock s)) (input_queue s) (n_put s) (ring_buffer s) (ready_event s)
       (n_calls s) (sent s) (wakes s) (stdout s) (net s) (proc s).
Definition set_input_queue (q : list Entry) (s : St) : St :=
  mkSt (clock s) q (n_put s) (ring_buffer s) (ready_event s)
       (n_calls s) (sent s) (wakes s) (stdout s) (net s) (proc s).
Definition set_n_put (n : nat) (s : St) : St :=
  mkSt (clock s) (input_queue s) n (ring_buffer s) (ready_event s)
       (n_calls s) (sent s) (wakes s) (stdout s) (net s) (proc s).
Definition set_ring_buffer (r : list Snapshot) (s : St) : St :=
  mkSt (clock s) (input_queue s) (n_put s) r (ready_event s)
       (n_calls s) (sent s) (wakes s) (stdout s) (net s) (proc s).
Definition set_ready_event (b : bool) (s : St) : St :=
  mkSt (clock s) (input_queue s) (n_put s) (ring_buffer s) b
       (n_calls s) (sent s) (wakes s) (stdout s) (net s) (proc s).
Definition set_n_calls (n : nat) (s : St) : St :=
  mkSt (clock s) (input_queue s) (n_put s) (ring_buffer s) (ready_event s)
       n (sent s) (wakes s) (stdout s) (net s) (proc s).
Definition set_sent (l : list (Pose * Z)) (s : St) : St :=
  mkSt (clock s) (input_queue s) (n_put s) (ring_buffer s) (ready_event s)
       (n_calls s) l (wakes s) (stdout s) (net s) (proc s).
Definition set_wakes (l : list Q) (s : St) : St :=
  mkSt (clock s) (input_queue s) (n_put s) (ring_buffer s) (ready_event s)
       (n_calls s) (sent s) l (stdout s) (net s) (proc s).
Definition set_stdout (l : list string) (s : St) : St :=
  mkSt (clock s) (input_queue s) (n_put s) (ring_buffer s) (ready_event s)
       (n_calls s) (sent s) (wakes s) l (net s) (proc s).
Definition set_net (l : list NetEvent) (s : St) : St :=
  mkSt (clock s) (input_queue s) (n_put s) (ring_buffer s) (ready_event s)
       (n_calls s) (sent s) (wakes s) (stdout s) l (proc s).
Definition set_proc (p : ProcStatus) (s : St) : St :=
  mkSt (clock s) (input_queue s) (n_put s) (ring_buffer s) (ready_event s)
       (n_calls s) (sent s) (wakes s) (stdout s) (net s) p.

(** ** A state-and-exception monad

    [Ret] and [Raise] are Python's normal and exceptional completion.
    [Yield] marks a computation that has not completed: the loop with its
    fuel used up, or a caller blocked on it. *)
Inductive res (A : Type) :=
  | Ret (a : A)
  | Raise (e : exn)
  | Yield.
Arguments Ret {A} a.
Arguments Raise {A} e.
Arguments Yield {A}.

Definition Py (A : Type) : Type := St → St * res A.

Definition ret {A} (a : A) : Py A := λ s, (s, Ret a).

Definition bind {A B} (m : Py A) (k : A → Py B) : Py B :=
  λ s, match m s with
       | (s', Ret a) => k a s'
       | (s', Raise e) => (s', Raise e)
       | (s', Yield) => (s', Yield)
       end.

Definition raise {A} (e : exn) : Py A := λ s, (s, Raise e).

#[global] Instance Py_ret : MRet Py := @ret.
#[global] Instance Py_bind : MBind Py := λ A B k m, bind m k.

(** try: body / except Exception as e: handler e *)
Definition try_except {A} (body : Py A) (handler : exn → Py A) : Py A :=
  λ s, match body s with
       | (s', Raise e) => if is_Exception e then handler e s' else (s', Raise e)
       | r => r
       end.

(** try: body / finally: cleanup.  An exception raised by the cleanup
    replaces the outcome of the body. *)
Definition try_finally {A} (body : Py A) (cleanup : Py unit) : Py A :=
  λ s, match body s with
       | (s', Yield) => (s', Yield)
       | (s', r) => match cleanup s' with
                    | (s'', Ret _) => (s'', r)
                    | (s'', Raise e) => (s'', Raise e)
                    | (s'', Yield) => (s'', Yield)
                    end
       end.

(** A plain change of the state. *)
Definition modify (f : St → St) : Py unit := λ s, (f s, Ret tt).

Definition when (b : bool) (m : Py unit) : Py unit := if b then m else ret tt.

Definition assert_ (b : bool) : Py unit :=
  if b then ret tt else raise AssertionError.

Definition print (line : string) : Py unit :=
  modify (λ s, set_stdout (stdout s ++ [line])%list s).

(** for x in xs: body x *)
Fixpoint for_each {A} (xs : list A) (body : A → Py unit) : Py unit :=
  match xs with
  | [] => ret tt
  | x :: xs' => body x ;; for_each xs' body
  end.

(** ** The environment

    Everything the module does not decide itself: the robot behind
    [elephant_client], the other producers of commands, the scheduler's
    imprecision, and the one behaviour of the command queue that the sources
    at hand leave open. *)

(** What [get_all] does on an empty queue. *)
Inductive EmptyMode :=
  | RaisesEmpty     (* raise Empty *)
  | EmptyDict       (* a dict without keys *)
  | EmptyColumns.   (* the columns, each of length 0 *)

Record World := mkWorld {
  w_start_client : option exn;     (* exception raised by start_client() *)
  w_fault : nat → option exn;      (* exception raised by the k-th client call *)
  w_angles : nat → Pose;           (* angles the k-th client call reads back *)
  w_latency : nat → Q;             (* time the k-th client call takes *)
  w_oversleep : nat → Q;           (* by how much a sleep overshoots *)
  w_arrivals : nat → list Entry;   (* commands enqueued by producers before
                                      the drain of iteration i *)
  w_residue : nat → Entry;         (* previous content of the slot that the
                                      n-th put writes *)
  w_wall_offset : Q;               (* time.time() - time.monotonic() *)
  w_empty : EmptyMode
}.

(** The attributes of [self] that the methods read. *)
Record Controller := mkController {
  robot_ip : string;
  frequency : Q;
  launch_timeout : Q;
  joints_init : option Pose;
  verbose : bool;
  receive_keys : list string
}.

(** buffer_size of the input queue *)
Definition buffer_size : nat := 256.

(** The duration passed to [time.sleep] in the loop. *)
Definition tick_sleep : Q := 1 / 125.

(** Names bound in the scope of [run]: its parameter and the names it
    assigns, the names bound at module level, and the builtins it uses.
    [robot_ip] is none of them: the assignment [robot_ip = self.robot_ip]
    is commented out. *)
Definition run_locals : list string :=
  ["self"; "dt"; "target_pose"; "curr_t"; "last_waypoint_time"; "iter_idx";
   "keep_running"; "command"; "commands"; "key"; "value"; "e"; "state"].

Definition module_globals : list string :=
  ["os"; "time"; "enum"; "mp"; "SharedMemoryManager"; "si"; "st"; "np";
   "ElephantRobot"; "SharedMemoryQueue"; "Empty"; "SharedMemoryRingBuffer";
   "PoseTrajectoryInterpolator"; "Command"; "RTDEInterpolationController"].

Definition builtins : list string :=
  ["print"; "dict"; "exit"; "float"; "range"; "len"; "Exception"].

Definition name_bound (x : string) : bool :=
  bool_decide (x ∈ (run_locals ++ module_globals ++ builtins)%list).

(** a / b on floats *)
Definition float_div (a b : Q) : Py Q :=
  if Qeq_bool b 0 then raise ZeroDivisionError else ret (a / b)%Q.

Definition columns (es : list Entry) : gmap string Array :=
  <["cmd" := ArrInt (e_cmd <$> es)]>
  (<["target_pose" := ArrPose (e_target_pose <$> es)]>
  (<["duration" := ArrFloat (e_duration <$> es)]>
  (<["target_time" := ArrFloat (e_target_time <$> es)]> ∅))).

(** d[key] *)
Definition getitem (d : gmap string Array) (key : string) : Py Array :=
  match d !! key with
  | Some a => ret a
  | None => raise (KeyError key)
  end.

(** a[0], for the column of poses *)
Definition getitem0 (a : Array) : Py Pose :=
  match a with
  | ArrPose (p :: _) => ret p
  | ArrPose [] | ArrInt [] | ArrFloat [] => raise IndexError
  | _ => raise TypeError
  end.

(** for key, value in commands.items(): command[key] = value *)
Definition copy_items (commands : gmap string Array) : gmap string Array :=
  foldr (λ kv command, <[kv.1 := kv.2]> command) ∅ (map_to_list commands).

Section Controller.
Variable W : World.
Variable self : Controller.

(** *** Primitives *)

Definition time_monotonic : Py Q := λ s, (s, Ret (clock s)).

Definition time_time : Py Q := λ s, (s, Ret (clock s + w_wall_offset W)%Q).

(** time.sleep(d): returns after d, or later. *)
Definition time_sleep (d : Q) : Py unit :=
  λ s, let t := (clock s + d + w_oversleep W (n_calls s))%Q in
       (set_wakes (wakes s ++ [t])%list (set_clock (λ _, t) s), Ret tt).

(** One call on the client: it takes its time, then raises or returns. *)
Definition client_call : Py nat :=
  λ s, let k := n_calls s in
       let s' := set_n_calls (S k) (set_clock (λ t, t + w_latency W k)%Q s) in
       match w_fault W k with
       | Some e => (s', Raise e)
       | None => (s', Ret k)
       end.

(** elephant_client.write_angles(angles, speed) *)
Definition write_angles (angles : Pose) (speed : Z) : Py unit :=
  client_call;;
  modify (λ s, set_sent (sent s ++ [(angles, speed)])%list s).

(** elephant_client.get_angles() *)
Definition get_angles : Py Pose :=
  k ← client_call; ret (w_angles W k).

(** elephant_client.start_client() *)
Definition start_client : Py unit :=
  λ s, let s' := set_net (net s ++ [Connect (robot_ip self) 5001])%list s in
       match w_start_client W with
       | Some e => (s', Raise e)
       | None => (s', Ret tt)
       end.

(** Evaluating a bare name in [run]. *)
Definition load_name (x : string) : Py unit :=
  if name_bound x then ret tt else raise (NameError x).

(** ready_event.set() *)
Definition ready_event_set : Py unit :=
  modify (set_ready_event true).

(** ready_event.wait(timeout): returns at once when the event is set, and
    otherwise when the timeout has elapsed. *)
Definition ready_event_wait (timeout : Q) : Py bool :=
  λ s, if ready_event s then (s, Ret true)
       else (set_clock (λ t, t + timeout)%Q s, Ret false).

(** self.is_alive() *)
Definition is_alive : Py bool :=
  λ s, (s, Ret (match proc s with Running _ => true | _ => false end)).

(** *** The command queue and the ring buffer *)

(** Modelled from the spec: [SharedMemoryQueue.put] is not among the sources.
    A non-blocking append to a FIFO of bounded capacity that fails with
    [Full] when the capacity is used up.  The slot takes the keys of the
    message; its other keys keep their previous content. *)
Definition input_queue_put (m : Message) : Py unit :=
  λ s, if bool_decide (buffer_size ≤ length (input_queue s))%nat then (s, Raise Full)
       else (set_n_put (S (n_put s))
               (set_input_queue (input_queue s ++ [fill (w_residue W (n_put s)) m])%list s),
             Ret tt).

(** Modelled from the spec: [SharedMemoryQueue.get_all] is not among the
    sources.  It removes everything that is pending and returns it in FIFO
    order, one column per key.  With nothing pending the design document has
    it return an empty-result marker, while the module imports [Empty] for
    it; [w_empty] covers both. *)
Definition input_queue_get_all : Py (gmap string Array) :=
  λ s, match input_queue s with
       | [] => match w_empty W with
               | RaisesEmpty => (s, Raise Empty)
               | EmptyDict => (s, Ret ∅)
               | EmptyColumns => (s, Ret (columns []))
               end
       | es => (set_input_queue [] s, Ret (columns es))
       end.

(** Modelled from the spec: [SharedMemoryRingBuffer.put] is not among the
    sources.  It publishes one snapshot; the history is kept oldest first. *)
Definition ring_buffer_put (x : Snapshot) : Py unit :=
  modify (λ s, set_ring_buffer (ring_buffer s ++ [x])%list s).

(** *** Command methods of the handle *)

Definition servoL (pose : Pose) (duration : Q) : Py unit :=
  alive ← is_alive;
  assert_ alive;;
  period ← float_div 1 (frequency self);
  assert_ (Qle_bool period duration);;
  assert_ (bool_decide (length pose = 6%nat));;
  input_queue_put
    {| m_cmd := Command.value Command.SERVOL;
       m_target_pose := Some pose;
       m_duration := Some duration;
       m_target_time := None |}.

Definition schedule_waypoint (pose : Pose) (target_time : Q) : Py unit :=
  now ← time_time;
  assert_ (negb (Qle_bool target_time now));;
  assert_ (bool_decide (length pose = 6%nat));;
  input_queue_put
    {| m_cmd := Command.value Command.SCHEDULE_WAYPOINT;
       m_target_pose := Some pose;
       m_duration := None;
       m_target_time := Some target_time |}.

(** *** The main loop of the control process *)

(** for key in self.receive_keys: state[key] = np.array(get_angles()) *)
Fixpoint read_state (keys : list string) (state : gmap string Pose)
  : Py (gmap string Pose) :=
  match keys with
  | [] => ret state
  | key :: keys' => a ← get_angles; read_state keys' (<[key := a]> state)
  end.

(** The inner try block: afterwards [target_pose] is
    command['target_pose'][0], or what it was when anything in the block
    raised. *)
Definition drain_target (l : Locals) : Py Pose :=
  try_except
    (commands ← input_queue_get_all;
     let command := copy_items commands in
     col ← getitem command "target_pose";
     getitem0 col)
    (λ _, ret (target_pose l)).

(** The body of [while keep_running]. *)
Definition tick (l : Locals) : Py Locals :=
  target ← drain_target l;
  write_angles target 1000;;
  time_sleep tick_sleep;;
  state ← read_state (receive_keys self) ∅;
  now ← time_time;
  ring_buffer_put {| channels := state; robot_receive_timestamp := now |};;
  when (bool_decide (iter_idx l = 0%nat)) ready_event_set;;
  ret {| dt := dt l;
         target_pose := target;
         curr_t := curr_t l;
         last_waypoint_time := last_waypoint_time l;
         iter_idx := S (iter_idx l);
         keep_running := keep_running l |}.

(** The producers' commands that reach the queue before iteration [i]
    drains it. *)
Definition deliver (i : nat) : Py unit :=
  modify (λ s, set_input_queue (input_queue s ++ w_arrivals W i)%list s).

(** Out of fuel: the process is left alive, at the head of the loop. *)
Definition suspend (l : Locals) : Py unit :=
  λ s, (set_proc (Running (Some l)) s, Yield).

(** while keep_running: ... *)
Fixpoint loop (fuel : nat) (l : Locals) : Py unit :=
  if keep_running l then
    match fuel with
    | O => suspend l
    | S fuel' => deliver (iter_idx l);; l' ← tick l; loop fuel' l'
    end
  else ret tt.

(** The statements of [run] before the loop. *)
Definition enter : Py Locals :=
  when (verbose self)
    (load_name "robot_ip";;
     print "[RTDEPositionalController] Connect to robot: ");;
  match joints_init self with
  | Some joints => write_angles joints 1000
  | None => ret tt
  end;;
  dt ← float_div 1 (frequency self);
  target_pose ← get_angles;
  curr_t ← time_monotonic;
  ret {| dt := dt;
         target_pose := target_pose;
         curr_t := curr_t;
         last_waypoint_time := curr_t;
         iter_idx := 0;
         keep_running := true |}.

(** except Exception as e: print('error', e) *)
Definition error_line (e : exn) : string := "error " ++ exn_str e.

Definition on_error (e : exn) : Py unit := print (error_line e).

(** The finally block. *)
Definition cleanup : Py unit :=
  ready_event_set;;
  when (verbose self)
    (load_name "robot_ip";;
     print "[RTDEPositionalController] Disconnected from robot: ").

(** try: body / except Exception as e: ... / finally: ... *)
Definition guarded (body : Py unit) : Py unit :=
  try_finally (try_except body on_error) cleanup.

Definition run (fuel : nat) : Py unit :=
  guarded (l ← enter; loop fuel l).

(** [run], taken up again at the head of the loop. *)
Definition resume (fuel : nat) (l : Locals) : Py unit :=
  guarded (loop fuel l).

(** The control process gets [k] steps of processor time: a step is the part
    of [run] before the loop, or one loop iteration.  An exception that
    escapes [run] ends the process; it does not reach the orchestrator. *)
Definition finish (r : St * res unit) : St * res unit :=
  match r with
  | (s, Yield) => (s, Ret tt)
  | (s, Ret _) => (set_proc (Exited None) s, Ret tt)
  | (s, Raise e) => (set_proc (Exited (Some e)) s, Ret tt)
  end.

Definition control_process (k : nat) : Py unit :=
  λ s, match k, proc s with
       | S n, Running None => finish (run n s)
       | S n, Running (Some l) => finish (resume k l s)
       | _, _ => (s, Ret tt)
       end.

(** *** Launch and stop *)

(** mp.Process.start *)
Definition Process_start : Py unit :=
  λ s, match proc s with
       | NotStarted => (set_proc (Running None) s, Ret tt)
       | _ => (s, Raise AssertionError)
       end.

(** mp.Process.join without a timeout: blocks until the process has
    exited. *)
Definition Process_join : Py unit :=
  λ s, match proc s with
       | Exited _ => (s, Ret tt)
       | Running _ => (s, Yield)
       | NotStarted => (s, Raise AssertionError)
       end.

Definition start_wait : Py unit :=
  ready_event_wait (launch_timeout self);;
  alive ← is_alive;
  assert_ alive.

Definition stop_wait : Py unit := Process_join.

(** [control_process] in its two parts: the steps of [run], whose outcome is
    handed back, and the exit of the process once [run] is over.  Between
    the two the process is alive although its [run] has ended. *)
Definition control_run (k : nat) : Py (res unit) :=
  λ s, match k, proc s with
       | S n, Running None => let '(s', r) := run n s in (s', Ret r)
       | S n, Running (Some l) => let '(s', r) := resume k l s in (s', Ret r)
       | _, _ => (s, Ret Yield)
       end.

Definition control_exit (r : res unit) : Py unit := λ s, finish (s, r).

(** [k]: the steps the control process makes before the launcher looks at
    it.  [t]: whether a process whose [run] has ended within these steps is
    gone before the launcher waits and asserts [is_alive], or only
    afterwards; the finally block of [run] sets the readiness event before
    the process exits, so both orders occur. *)
Definition start (wait : bool) (k : nat) (t : ExitTiming) : Py unit :=
  Process_start;;
  r ← control_run k;
  match t with
  | ExitsFirst => control_exit r;; when wait start_wait
  | ExitsLater => when wait start_wait;; control_exit r
  end;;
  when (verbose self)
    (print "[RTDEPositionalController] Controller process spawned at ").

(** [k]: the steps the control process makes after the put; with
    [wait], [Yield] says that the join is still blocked after them. *)
Definition stop (wait : bool) (k : nat) : Py unit :=
  input_queue_put
    {| m_cmd := Command.value Command.STOP;
       m_target_pose := None;
       m_duration := None;
       m_target_time := None |};;
  control_process k;;
  when wait stop_wait.

(** *** The constructor *)

(** exit(1) *)
Definition exit (code : Z) : Py unit := raise (SystemExit code).

Definition __init__ : Py unit :=
  modify (set_input_queue []);;
  (* ElephantRobot(robot_ip, 5001) only builds the client object *)
  try_except start_client
    (λ e, print ("Failed to start elephant client: " ++ exn_str e);;
          exit 1);;
  for_each (receive_keys self) (λ _, get_angles;; ret tt);;
  time_time;;
  modify (set_ring_buffer []);;
  modify (set_ready_event false);;
  print ("ip: " ++ robot_ip self).

End Controller.

(** The state before the constructor runs, at time [t0]. *)
Definition boot (t0 : Q) : St :=
  mkSt t0 [] 0 [] false 0 [] [] [] [] NotStarted.

(** ** Vocabulary of the statements *)

(** [m] leaves the observation [f] of the state as it is. *)
Definition keeps {X A} (f : St → X) (m : Py A) : Prop :=
  ∀ s, f (m s).1 = f s.

(** [m] does not end the control process. *)
Definition stays_alive {A} (m : Py A) : Prop :=
  ∀ s l, proc s = Running l → ∃ l', proc (m s).1 = Running l'.

(** The robot never fails a call. *)
Definition reliable (W : World) : Prop := ∀ k, w_fault W k = None.

(** The raw pose one iteration passes on: that of the oldest pending command,
    or the target so far when nothing is pending. *)
Definition raw_target (l : Locals) (s : St) : Pose :=
  default (target_pose l) (e_target_pose <$> head (input_queue s)).

(** ** Concrete scenarios *)

Definition home : Pose := [0; 0; 0; 0; 0; 0]%Q.
Definition pose_b : Pose := [10; 20; 30; 40; 50; 60]%Q.
Definition pose_c : Pose := [90; 90; 90; 90; 90; 90]%Q.

(** A robot that answers every call within a millisecond and rests at
    [home]; no other producer; the queue raises [Empty]. *)
Definition calm : World :=
  {| w_start_client := None;
     w_fault := λ _, None;
     w_angles := λ _, home;
     w_latency := λ _, (1 # 1000)%Q;
     w_oversleep := λ _, 0%Q;
     w_arrivals := λ _, [];
     w_residue := λ _, mkEntry 0 home 0 0;
     w_wall_offset := 0%Q;
     w_empty := RaisesEmpty |}.

(** As [calm], but the [k]-th call on the client times out. *)
Definition faulty_at (k : nat) : World :=
  {| w_start_client := None;
     w_fault := λ i, if bool_decide (i = k) then Some (ClientError "timed out")
                     else None;
     w_angles := λ _, home;
     w_latency := λ _, (1 # 1000)%Q;
     w_oversleep := λ _, 0%Q;
     w_arrivals := λ _, [];
     w_residue := λ _, mkEntry 0 home 0 0;
     w_wall_offset := 0%Q;
     w_empty := RaisesEmpty |}.

(** As [calm], but the robot cannot be reached at construction time. *)
Definition unreachable : World :=
  {| w_start_client := Some (ClientError "connection refused");
     w_fault := λ _, None;
     w_angles := λ _, home;
     w_latency := λ _, (1 # 1000)%Q;
     w_oversleep := λ _, 0%Q;
     w_arrivals := λ _, [];
     w_residue := λ _, mkEntry 0 home 0 0;
     w_wall_offset := 0%Q;
     w_empty := RaisesEmpty |}.

(** The controller as real_env builds it, and two variations. *)
Definition arm : Controller :=
  {| robot_ip := "192.168.0.204";
     frequency := 125;
     launch_timeout := 3;
     joints_init := None;
     verbose := false;
     receive_keys := ["ActualTCPPose"] |}.

Definition arm_verbose : Controller :=
  {| robot_ip := "192.168.0.204";
     frequency := 125;
     launch_timeout := 3;
     joints_init := None;
     verbose := true;
     receive_keys := ["ActualTCPPose"] |}.

Definition arm_10hz : Controller :=
  {| robot_ip := "192.168.0.204";
     frequency := 10;
     launch_timeout := 3;
     joints_init := None;
     verbose := false;
     receive_keys := ["ActualTCPPose"] |}.

(** The locals at the head of the loop, with the arm at [home]. *)
Definition at_home : Locals :=
  {| dt := 1 / 125;
     target_pose := home;
     curr_t := 0;
     last_waypoint_time := 0;
     iter_idx := 0;
     keep_running := true |}.

(** A live process with the given commands pending. *)
Definition pending (q : list Entry) : St :=
  {| clock := 0;
     input_queue := q;
     n_put := length q;
     ring_buffer := [];
     ready_event := false;
     n_calls := 0;
     sent := [];
     wakes := [];
     stdout := [];
     net := [];
     proc := Running (Some at_home) |}.

(** Commands as the queue holds them. *)
Definition servo (pose : Pose) (duration : Q) : Entry :=
  mkEntry (Command.value Command.SERVOL) pose duration 0.

Definition stop_entry (residue : Pose) : Entry :=
  mkEntry (Command.value Command.STOP) residue 0 0.

(** A controller that has been constructed and whose process has been
    started but has not run yet. *)
Definition launched (W : World) (self : Controller) : St :=
  (start W self false 0 ExitsLater (__init__ W self (boot 0)).1).1.

(** ** The rest of the handle *)

(** @property is_ready: self.ready_event.is_set() *)
Definition is_ready : Py bool := λ s, (s, Ret (ready_event s)).

(** __enter__: self.start(), with the default wait=True. *)
Definition __enter__ (W : World) (self : Controller) (k : nat)
    (t : ExitTiming) : Py unit :=
  start W self true k t.

(** __exit__: self.stop(), with the default wait=True. *)
Definition __exit__ (W : World) (self : Controller) (k : nat) : Py unit :=
  stop W self true k.

(** No call on the client and no sleep takes negative time. *)
Definition causal (W : World) : Prop :=
  ∀ k, (0 <= w_latency W k)%Q ∧ (0 <= w_oversleep W k)%Q.

(** No other producer puts commands. *)
Definition quiet (W : World) : Prop := ∀ i, w_arrivals W i = [].

(** A controller configured with frequency 0 and an initial pose. *)
Definition arm_0hz : Controller :=
  {| robot_ip := "192.168.0.204";
     frequency := 0;
     launch_timeout := 3;
     joints_init := Some pose_b;
     verbose := false;
     receive_keys := ["ActualTCPPose"] |}.

(** When [servoL] returns normally, and when [schedule_waypoint] does. *)
Definition servoL_ok (self : Controller) (pose : Pose) (x : Q) (s : St) : bool :=
  match proc s with Running _ => true | _ => false end
  && negb (Qeq_bool (frequency self) 0)
  && Qle_bool (1 / frequency self) x
  && bool_decide (length pose = 6%nat)
  && bool_decide (length (input_queue s) < buffer_size)%nat.

Definition schedule_waypoint_ok (W : World) (pose : Pose) (x : Q) (s : St)
  : bool :=
  negb (Qle_bool x (clock s + w_wall_offset W))
  && bool_decide (length pose = 6%nat)
  && bool_decide (length (input_queue s) < buffer_size)%nat.

(** ** The teleoperation loop of demo_real_robot.py

    [main] without its collaborators: the environment, the camera window,
    the key counter and the motion controller are reduced to the calls made
    on them, which are logged, and to the values they hand back, which an
    operator record supplies, as it does the readings of the two clocks and
    the outcomes of entering and leaving the four context managers. *)
Module Demo.

Inductive KeyStroke :=
  | KeyCode (char : string)
  | Key_backspace
  | Key_space
  | Key_other (name : string).

#[global] Instance KeyStroke_eq_dec : EqDecision KeyStroke.
Proof. solve_decision. Defined.

(** The context managers of the two with statements, outermost first. *)
Inductive Manager :=
  | SharedMemoryManager
  | KeystrokeCounter
  | Control
  | RealEnv.

Inductive Action :=
  | Enter (m : Manager)
  | Exit (m : Manager) (e : option exn)
  | SetNumThreads (n : Z)
  | SetExposure (exposure gain : Z)
  | SetWhiteBalance (white_balance : Z)
  | Sleep (seconds : Q)
  | GetRobotState
  | GetObs
  | StartEpisode (start_time : Q)
  | EndEpisode
  | DropEpisode
  | KeyClear
  | FirstPose
  | Show (recording : bool)
  | PreciseWait (t_end : Q)
  | GetMotionState
  | ExecActions (action : list Q) (timestamp : Q) (stage : Z)
  | Print (line : string)
  | PrintError (e : exn).       (* print(f"An error occurred: {e}") *)

Record Operator := mkOperator {
  press_events : nat → list KeyStroke;   (* get_press_events() of iteration i *)
  confirm : nat → bool;                  (* answer to the n-th click.confirm *)
  motion_state : nat → list Q;           (* cl.get_motion_state() *)
  stage : nat → Z;                       (* key_counter[Key.space] *)
  monotonic : nat → Q;   (* time.monotonic() in the n-th conversion of a
                            time to the wall clock *)
  wall : nat → Q;        (* time.time() in the same conversion *)
  on_enter : Manager → res unit;
                         (* the constructor call and __enter__: they return,
                            raise, or block *)
  on_exit : Manager → option exn → res bool
                         (* __exit__, given the exception in flight: the
                            truth of what it returns, or it raises, or
                            blocks *)
}.

(** The locals of [main] while the loop runs. *)
Record Loop := mkLoop {
  dt : Q;
  command_latency : Q;
  t_start : Q;
  iter_idx : nat;
  stop : bool;
  is_recording : bool;
  target_pose : list Q;
  confirms : nat;           (* confirmations asked so far *)
  reads : nat;              (* conversions to the wall clock so far *)
  trace : list Action       (* calls made so far, oldest first *)
}.

Definition log (acts : list Action) (st : Loop) : Loop :=
  mkLoop (dt st) (command_latency st) (t_start st) (iter_idx st) (stop st)
         (is_recording st) (target_pose st) (confirms st) (reads st)
         (trace st ++ acts)%list.
Definition set_stop (b : bool) (st : Loop) : Loop :=
  mkLoop (dt st) (command_latency st) (t_start st) (iter_idx st) b
         (is_recording st) (target_pose st) (confirms st) (reads st)
         (trace st).
Definition set_is_recording (b : bool) (st : Loop) : Loop :=
  mkLoop (dt st) (command_latency st) (t_start st) (iter_idx st) (stop st)
         b (target_pose st) (confirms st) (reads st) (trace st).
Definition set_target_pose (p : list Q) (st : Loop) : Loop :=
  mkLoop (dt st) (command_latency st) (t_start st) (iter_idx st) (stop st)
         (is_recording st) p (confirms st) (reads st) (trace st).
Definition set_confirms (n : nat) (st : Loop) : Loop :=
  mkLoop (dt st) (command_latency st) (t_start st) (iter_idx st) (stop st)
         (is_recording st) (target_pose st) n (reads st) (trace st).
Definition set_reads (n : nat) (st : Loop) : Loop :=
  mkLoop (dt st) (command_latency st) (t_start st) (iter_idx st) (stop st)
         (is_recording st) (target_pose st) (confirms st) n (trace st).
Definition set_iter_idx (n : nat) (st : Loop) : Loop :=
  mkLoop (dt st) (command_latency st) (t_start st) n (stop st)
         (is_recording st) (target_pose st) (confirms st) (reads st)
         (trace st).

(** t_start + (iter_idx + 1) * dt *)
Definition t_cycle_end (st : Loop) : Q :=
  (t_start st + inject_Z (Z.of_nat (iter_idx st) + 1) * dt st)%Q.

(** t_cycle_end - command_latency *)
Definition t_sample (st : Loop) : Q := (t_cycle_end st - command_latency st)%Q.

(** t_cycle_end + dt *)
Definition t_command_target (st : Loop) : Q := (t_cycle_end st + dt st)%Q.

(** t - time.monotonic() + time.time(), the two clocks being read for the
    [n]-th time. *)
Definition to_wall (O : Operator) (n : nat) (t : Q) : Q :=
  (t - monotonic O n + wall O n)%Q.

(** One pass of the body of [for key_stroke in press_events]. *)
Definition on_key (O : Operator) (st : Loop) (key_stroke : KeyStroke) : Loop :=
  if bool_decide (key_stroke = KeyCode "q") then set_stop true st
  else if bool_decide (key_stroke = KeyCode "c") then
    set_is_recording true
      (log [StartEpisode
              (to_wall O (reads st)
                 (t_start st
                  + inject_Z (Z.of_nat (iter_idx st) + 2) * dt st)%Q);
            KeyClear; Print "Recording!"]
         (set_reads (S (reads st)) st))
  else if bool_decide (key_stroke = KeyCode "s") then
    set_is_recording false (log [EndEpisode; KeyClear; Print "Stopped."] st)
  else if bool_decide (key_stroke = Key_backspace) then
    if confirm O (confirms st) then
      set_is_recording false
        (log [DropEpisode; KeyClear] (set_confirms (S (confirms st)) st))
    else set_confirms (S (confirms st)) st
  else if bool_decide (key_stroke = KeyCode "r") then
    log [FirstPose; Print "reset."] st
  else st.

(** target_pose[i] += cl_state[i] *)
Definition iadd (cl_state : list Q) (i : nat) (target : list Q)
  : option (list Q) :=
  match target !! i, cl_state !! i with
  | Some a, Some b => Some (<[i := (a + b)%Q]> target)
  | _, _ => None
  end.

(** The six in-place additions; [None] is the IndexError of the first index
    that one of the two arrays does not have. *)
Definition accumulate (cl_state target : list Q) : option (list Q) :=
  p0 ← iadd cl_state 0 target;
  p1 ← iadd cl_state 1 p0;
  p2 ← iadd cl_state 2 p1;
  p3 ← iadd cl_state 3 p2;
  p4 ← iadd cl_state 4 p3;
  iadd cl_state 5 p4.

(** The body of [while not stop]. *)
Definition body (O : Operator) (st : Loop) : Loop * res unit :=
  let t_end := t_cycle_end st in
  let t_smp := t_sample st in
  let t_cmd := t_command_target st in
  let st := log [GetObs] st in
  let st := foldl (on_key O) st (press_events O (iter_idx st)) in
  let stg := stage O (iter_idx st) in
  let st := log [Show (is_recording st); PreciseWait t_smp; GetMotionState;
                 Print "control"; Print "pose"] st in
  match accumulate (motion_state O (iter_idx st)) (target_pose st) with
  | None => (st, Raise IndexError)
  | Some pose =>
      let st := set_target_pose pose st in
      let st := log [ExecActions pose (to_wall O (reads st) t_cmd) stg;
                     PreciseWait t_end] (set_reads (S (reads st)) st) in
      (set_iter_idx (S (iter_idx st)) st, Ret tt)
  end.

(** while not stop: ... *)
Fixpoint while_not_stop (O : Operator) (fuel : nat) (st : Loop)
  : Loop * res unit :=
  if stop st then (st, Ret tt)
  else match fuel with
       | O => (st, Yield)
       | S fuel' =>
           match body O st with
           | (st', Ret _) => while_not_stop O fuel' st'
           | r => r
           end
       end.

(** with m as _: block.  The manager is built and entered; when the block
    is over, or has raised, its __exit__ is called, with the exception if
    there is one, which then goes on unless __exit__ returns a true value
    or raises one of its own. *)
Definition with_ (O : Operator) (m : Manager)
    (block : list Action → list Action * res unit) (tr : list Action)
  : list Action * res unit :=
  match on_enter O m with
  | Ret _ =>
      match block (tr ++ [Enter m])%list with
      | (tr', Ret _) =>
          match on_exit O m None with
          | Ret _ => ((tr' ++ [Exit m None])%list, Ret tt)
          | Raise e' => ((tr' ++ [Exit m None])%list, Raise e')
          | Yield => ((tr' ++ [Exit m None])%list, Yield)
          end
      | (tr', Raise e) =>
          match on_exit O m (Some e) with
          | Ret true => ((tr' ++ [Exit m (Some e)])%list, Ret tt)
          | Ret false => ((tr' ++ [Exit m (Some e)])%list, Raise e)
          | Raise e' => ((tr' ++ [Exit m (Some e)])%list, Raise e')
          | Yield => ((tr' ++ [Exit m (Some e)])%list, Yield)
          end
      | (tr', Yield) => (tr', Yield)
      end
  | Raise e => (tr, Raise e)
  | Yield => (tr, Yield)
  end.

(** The block of the inner with statement.  [robot_pose] is
    env.get_robot_state()['ActualTCPPose'], [now] the value of
    time.monotonic() when the loop is entered. *)
Definition session (O : Operator) (frequency latency : Q)
    (robot_pose : list Q) (now : Q) (fuel : nat) (tr : list Action)
  : list Action * res unit :=
  let st := {| dt := 1 / frequency;
               command_latency := latency;
               t_start := now;
               iter_idx := 0;
               stop := false;
               is_recording := false;
               target_pose := robot_pose;
               confirms := 0;
               reads := 0;
               trace := (tr ++ [SetNumThreads 1; SetExposure 120 0;
                                SetWhiteBalance 5900; Sleep 1;
                                Print "Ready!"; GetRobotState])%list |} in
  let '(st', r) := while_not_stop O fuel st in
  (trace st', r).

(** [main] from [dt = 1/frequency] on.  The division is outside the try
    statement; the two with statements are inside it. *)
Definition main (O : Operator) (frequency latency : Q)
    (robot_pose : list Q) (now : Q) (fuel : nat) : list Action * res unit :=
  if Qeq_bool frequency 0 then ([], Raise ZeroDivisionError)
  else
    match with_ O SharedMemoryManager
            (with_ O KeystrokeCounter
               (with_ O Control
                  (with_ O RealEnv
                     (session O frequency latency robot_pose now fuel))))
            [] with
    | (tr, Raise e) =>
        if is_Exception e then ((tr ++ [PrintError e])%list, Ret tt)
        else (tr, Raise e)
    | r => r
    end.

(** The poses and the timestamps handed to [env.exec_actions]. *)
Definition exec_actions (tr : list Action) : list (list Q * Q) :=
  omap (λ a, match a with
             | ExecActions pose t _ => Some (pose, t)
             | _ => None
             end) tr.

(** The deadlines handed to [precise_wait]. *)
Definition waits (tr : list Action) : list Q :=
  omap (λ a, match a with
             | PreciseWait t => Some t
             | _ => None
             end) tr.


(** Sum of component [j] of the motion states of iterations [i .. i+n-1]. *)
Fixpoint motion_sum (O : Operator) (j i n : nat) : Q :=
  match n with
  | O => 0
  | S n' => (nth j (motion_state O i) 0 + motion_sum O j (S i) n')%Q
  end.

(** The two deadlines of iteration [i]: that of sampling the motion state
    and the end of the cycle. *)
Definition deadlines (st : Loop) (i : nat) : list Q :=
  [(t_start st + inject_Z (Z.of_nat i + 1) * dt st - command_latency st)%Q;
   (t_start st + inject_Z (Z.of_nat i + 1) * dt st)%Q].

(** An operator who presses the given keys in the given iterations and
    pushes the stick the same way all the time.  The wall clock gains ten
    microseconds on the monotonic one between two readings; the context
    managers open, and close without taking the exception. *)
Definition operator (keys : nat → list KeyStroke) (push : list Q) : Operator :=
  {| press_events := keys;
     confirm := λ _, true;
     motion_state := λ _, push;
     stage := λ _, 0%Z;
     monotonic := λ n, (inject_Z (Z.of_nat n) * (1 # 10))%Q;
     wall := λ n, (1000 + inject_Z (Z.of_nat n) * (10001 # 100000))%Q;
     on_enter := λ _, Ret tt;
     on_exit := λ _ _, Ret false |}.

(** An operator who starts recording and quits in the third iteration, and
    pushes the stick along the first axis. *)
Definition pilot : Operator :=
  operator (λ i, if bool_decide (i = 2%nat) then [KeyCode "c"; KeyCode "q"]
                 else [])
           [1; 0; 0; 0; 0; 0]%Q.


(** An operator whose motion controller delivers three components only. *)
Definition short_stick : Operator := operator (λ _, []) [1; 0; 0]%Q.

(** The same with an environment whose __exit__ does not return. *)
Definition stuck_env : Operator :=
  {| press_events := press_events short_stick;
     confirm := confirm short_stick;
     motion_state := motion_state short_stick;
     stage := stage short_stick;
     monotonic := monotonic short_stick;
     wall := wall short_stick;
     on_enter := on_enter short_stick;
     on_exit := λ m e, match m with
                       | RealEnv => Yield
                       | _ => Ret false
                       end |}.

(** The loop about to start at 10 Hz with the arm at [home]. *)
Definition fresh : Loop :=
  {| dt := 1 / 10;
     command_latency := 1 # 100;
     t_start := 0;
     iter_idx := 0;
     stop := false;
     is_recording := false;
     target_pose := home;
     confirms := 0;
     reads := 0;
     trace := [] |}.

End Demo.

(** A robot that connects and then fails its first call. *)
Definition arm_deaf : World := faulty_at 0.

(** * Properties *)

(** ** The monad's combinators *)

Section Frames.
Context {X : Type} (f : St → X).

Lemma keeps_ret {A} (a : A) : keeps f (mret a).
Proof. by intros s. Qed.

Lemma keeps_raise {A} (e : exn) : keeps f (@raise A e).
Proof. by intros s. Qed.

Lemma keeps_bind {A B} (m : Py A) (k : A → Py B) :
  keeps f m → (∀ a, keeps f (k a)) → keeps f (m ≫= k).
Proof.
  intros Hm Hk s. unfold mbind, Py_bind, bind.
  specialize (Hm s). destruct (m s) as [s' [a|e|]]; simpl in *; try done.
  by rewrite Hk.
Qed.

Lemma keeps_try_except {A} (m : Py A) (h : exn → Py A) :
  keeps f m → (∀ e, keeps f (h e)) → keeps f (try_except m h).
Proof.
  intros Hm Hh s. unfold try_except.
  specialize (Hm s). destruct (m s) as [s' [a|e|]]; simpl in *; try done.
  destruct (is_Exception e); simpl; [by rewrite Hh | done].
Qed.

Lemma keeps_when (b : bool) (m : Py unit) : keeps f m → keeps f (when b m).
Proof. destruct b; [done | intros _; apply keeps_ret]. Qed.

Lemma keeps_assert (b : bool) : keeps f (assert_ b).
Proof. by destruct b. Qed.

Lemma keeps_modify (g : St → St) : (∀ s, f (g s) = f s) → keeps f (modify g).
Proof. intros Hg s. apply Hg. Qed.

Lemma keeps_for_each {A} (xs : list A) (body : A → Py unit) :
  (∀ x, keeps f (body x)) → keeps f (for_each xs body).
Proof.
  intros Hb. induction xs as [|x xs IH]; [apply keeps_ret |].
  apply keeps_bind; [apply Hb | by intros _].
Qed.

End Frames.

(** ** Which part of the state an operation touches *)

Lemma keeps_read_state {X} (f : St → X) W keys state :
  keeps f (client_call W) → keeps f (read_state W keys state).
Proof.
  intros Hc. revert state.
  induction keys as [|key keys IH]; intros state; [apply keeps_ret |].
  simpl. apply keeps_bind; [| by intros a].
  unfold get_angles. apply keeps_bind; [done | intros k; apply keeps_ret].
Qed.

Ltac head_of t :=
  lazymatch t with
  | ?g _ => head_of g
  | _ => t
  end.

(** Decomposes [keeps f m] along the structure of [m]; primitives are
    settled by evaluation. *)
Ltac frame :=
  lazymatch goal with
  | |- keeps _ (mbind _ _) => apply keeps_bind; [frame | intros; frame]
  | |- keeps _ (mret _) => apply keeps_ret
  | |- keeps _ (ret _) => apply keeps_ret
  | |- keeps _ (raise _) => apply keeps_raise
  | |- keeps _ (when _ _) => apply keeps_when; frame
  | |- keeps _ (assert_ _) => apply keeps_assert
  | |- keeps _ (try_except _ _) => apply keeps_try_except; [frame | intros; frame]
  | |- keeps _ (for_each _ _) => apply keeps_for_each; intros; frame
  | |- keeps _ (modify _) => apply keeps_modify; by intros []
  | |- keeps _ (read_state _ _ _) => apply keeps_read_state; frame
  | |- keeps _ (client_call _) =>
      by intros ?; unfold client_call; cbv zeta; case_match
  | |- keeps _ (input_queue_get_all _) =>
      by intros ?; unfold input_queue_get_all; repeat case_match
  | |- keeps _ (input_queue_put _ _) =>
      by intros ?; unfold input_queue_put; case_match
  | |- keeps _ (time_sleep _ _) => by intros ?
  | |- keeps _ (time_time _) => by intros ?
  | |- keeps _ time_monotonic => by intros ?
  | |- keeps _ (match ?x with _ => _ end) => destruct x; frame
  | |- keeps _ ?m => let h := head_of m in unfold h; frame
  end.

Lemma keeps_at {X A} (f : St → X) (m : Py A) s :
  keeps f m → f (m s).1 = f s.
Proof. intros Hm. apply Hm. Qed.

Lemma keeps_result {X A} (f : St → X) (m : Py A) s s' r :
  keeps f m → m s = (s', r) → f s' = f s.
Proof. intros Hm Hs. specialize (Hm s). by rewrite Hs in Hm. Qed.

Lemma bind_ret {A B} (m : Py A) (k : A → Py B) s s' a :
  m s = (s', Ret a) → (m ≫= k) s = k a s'.
Proof. intros Hm. unfold mbind, Py_bind, bind. by rewrite Hm. Qed.

Lemma bind_raise {A B} (m : Py A) (k : A → Py B) s s' e :
  m s = (s', Raise e) → (m ≫= k) s = (s', Raise e).
Proof. intros Hm. unfold mbind, Py_bind, bind. by rewrite Hm. Qed.

Lemma bind_yield {A B} (m : Py A) (k : A → Py B) s s' :
  m s = (s', Yield) → (m ≫= k) s = (s', Yield).
Proof. intros Hm. unfold mbind, Py_bind, bind. by rewrite Hm. Qed.

(** ** Draining the queue *)

(** Copying the items of a dict into a fresh dict gives the same dict. *)
Lemma copy_items_id (commands : gmap string Array) :
  copy_items commands = commands.
Proof. apply list_to_map_to_list. Qed.

Lemma columns_target_pose (es : list Entry) :
  columns es !! "target_pose" = Some (ArrPose (e_target_pose <$> es)).
Proof.
  unfold columns. rewrite lookup_insert_ne by done. apply lookup_insert_eq.
Qed.

(** The inner try block never raises: it empties the queue and yields the
    raw target, whatever [get_all] does on an empty queue. *)
Lemma drain_target_spec W l s :
  drain_target W l s = (set_input_queue [] s, Ret (raw_target l s)).
Proof.
  unfold drain_target, raw_target, try_except, input_queue_get_all.
  unfold mbind, Py_bind, bind.
  destruct s as [t q np rb re nc se wk so ne pr]; simpl.
  destruct q as [|e q]; simpl.
  - by destruct (w_empty W).
  - rewrite copy_items_id. unfold getitem.
    by rewrite (columns_target_pose (e :: q)).
Qed.

Lemma bind_inv_Ret {A B} (m : Py A) (k : A → Py B) s b :
  ((m ≫= k) s).2 = Ret b → ∃ a, (m s).2 = Ret a ∧ (k a (m s).1).2 = Ret b.
Proof.
  unfold mbind, Py_bind, bind.
  destruct (m s) as [s' [a|e|]]; simpl; [eauto | done | done].
Qed.

(** ** The client *)

Lemma write_angles_ok W angles speed s :
  w_fault W (n_calls s) = None →
  write_angles W angles speed s =
    (set_sent (sent s ++ [(angles, speed)])
       (set_n_calls (S (n_calls s))
          (set_clock (λ t, t + w_latency W (n_calls s))%Q s)),
     Ret tt).
Proof.
  intros Hk. unfold write_angles, client_call, mbind, Py_bind, bind.
  by rewrite Hk.
Qed.

Lemma write_angles_fault W angles speed s e :
  w_fault W (n_calls s) = Some e →
  write_angles W angles speed s =
    (set_n_calls (S (n_calls s))
       (set_clock (λ t, t + w_latency W (n_calls s))%Q s),
     Raise e).
Proof.
  intros Hk. unfold write_angles, client_call, mbind, Py_bind, bind.
  by rewrite Hk.
Qed.

Lemma get_angles_ok W s :
  w_fault W (n_calls s) = None →
  get_angles W s =
    (set_n_calls (S (n_calls s))
       (set_clock (λ t, t + w_latency W (n_calls s))%Q s),
     Ret (w_angles W (n_calls s))).
Proof.
  intros Hk. unfold get_angles, client_call, mbind, Py_bind, bind.
  by rewrite Hk.
Qed.

Lemma get_angles_fault W s e :
  w_fault W (n_calls s) = Some e →
  get_angles W s =
    (set_n_calls (S (n_calls s))
       (set_clock (λ t, t + w_latency W (n_calls s))%Q s),
     Raise e).
Proof.
  intros Hk. unfold get_angles, client_call, mbind, Py_bind, bind.
  by rewrite Hk.
Qed.

(** ** One loop iteration *)

(** An iteration whose dispatch succeeds, up to the point after
    [write_angles]. *)
Lemma tick_dispatch W self l s :
  w_fault W (n_calls s) = None →
  ∃ rest : Py Locals,
    tick W self l s =
      rest (set_sent (sent s ++ [(raw_target l s, 1000%Z)])
              (set_n_calls (S (n_calls s))
                 (set_clock (λ t, t + w_latency W (n_calls s))%Q
                    (set_input_queue [] s)))) ∧
    rest =
      (time_sleep W tick_sleep;;
       state ← read_state W (receive_keys self) ∅;
       now ← time_time W;
       ring_buffer_put {| channels := state; robot_receive_timestamp := now |};;
       when (bool_decide (iter_idx l = 0%nat)) ready_event_set;;
       mret {| dt := dt l;
               target_pose := raw_target l s;
               curr_t := curr_t l;
               last_waypoint_time := last_waypoint_time l;
               iter_idx := S (iter_idx l);
               keep_running := keep_running l |}).
Proof.
  intros Hk. eexists. split; [| reflexivity].
  unfold tick.
  rewrite (bind_ret _ _ _ _ _ (drain_target_spec W l s)). cbv beta.
  by rewrite (bind_ret _ _ _ _ _
                (write_angles_ok W _ _ (set_input_queue [] s) Hk)).
Qed.

(** C1 (as amended): one loop iteration empties the command queue and
    hands the actuator a raw command pose, the target pose of the oldest
    command of the drained batch, or the previous target when nothing was
    pending.  No interpolator is involved, and the pose becomes the target
    that the next iteration starts from. *)
Theorem tick_passes_raw_target W self l s :
  w_fault W (n_calls s) = None →
  input_queue (tick W self l s).1 = [] ∧
  sent (tick W self l s).1 = (sent s ++ [(raw_target l s, 1000%Z)])%list ∧
  ∀ l', (tick W self l s).2 = Ret l' → target_pose l' = raw_target l s.
Proof.
  intros Hk. destruct (tick_dispatch W self l s Hk) as (rest & -> & ->).
  split_and!.
  - rewrite keeps_at by frame. reflexivity.
  - rewrite keeps_at by frame. reflexivity.
  - intros l' Hl'.
    repeat (apply bind_inv_Ret in Hl' as (? & _ & Hl')).
    simpl in Hl'. by inversion Hl'.
Qed.

Lemma tick_passes_raw_target_witness :
  w_fault calm (n_calls (pending [servo pose_b 10; servo pose_c 10])) = None ∧
  (input_queue
     (tick calm arm at_home (pending [servo pose_b 10; servo pose_c 10])).1 = [] ∧
   sent (tick calm arm at_home (pending [servo pose_b 10; servo pose_c 10])).1 =
     (sent (pending [servo pose_b 10; servo pose_c 10]) ++
      [(raw_target at_home (pending [servo pose_b 10; servo pose_c 10]),
        1000%Z)])%list ∧
   ∀ l',
     (tick calm arm at_home (pending [servo pose_b 10; servo pose_c 10])).2 =
       Ret l' →
     target_pose l' =
       raw_target at_home (pending [servo pose_b 10; servo pose_c 10])).
Proof.
  split; [reflexivity |].
  apply (tick_passes_raw_target calm arm at_home
           (pending [servo pose_b 10; servo pose_c 10])).
  reflexivity.
Defined.

(** C1 (as stated) fails.  The arm is at [home]; two commands are pending,
    to reach [pose_b] within ten seconds and then [pose_c] within ten
    seconds.  The first iteration hands the actuator [pose_b] itself, not a
    pose on the way from [home] to it, and so do the next two; replacing the
    second command changes nothing, and [pose_c] is never sent. *)
Lemma raw_pose_dispatched :
  (sent (resume calm arm 3 at_home
           (pending [servo pose_b 10; servo pose_c 10])).1).*1 =
    [pose_b; pose_b; pose_b] ∧
  (sent (resume calm arm 3 at_home
           (pending [servo pose_b 10; servo home 10])).1).*1 =
    [pose_b; pose_b; pose_b].
Proof. split; vm_compute; reflexivity. Qed.

(** ** The loop on a reliable robot *)

Lemma read_state_reliable W keys state s :
  reliable W → ∃ s' state', read_state W keys state s = (s', Ret state').
Proof.
  intros HW. revert state s.
  induction keys as [|key keys IH]; intros state s; simpl; [by eexists _, _ |].
  unfold get_angles, client_call, mbind, Py_bind, bind. rewrite HW.
  apply IH.
Qed.

(** On a reliable robot an iteration returns, and it leaves [keep_running]
    as it found it: nothing in the body assigns it. *)
Lemma tick_reliable W self l s :
  reliable W →
  ∃ s', tick W self l s =
          (s', Ret {| dt := dt l;
                      target_pose := raw_target l s;
                      curr_t := curr_t l;
                      last_waypoint_time := last_waypoint_time l;
                      iter_idx := S (iter_idx l);
                      keep_running := keep_running l |}).
Proof.
  intros HW. destruct (tick_dispatch W self l s (HW _)) as (rest & -> & ->).
  rewrite (bind_ret _ _ _ _ _ eq_refl). cbv beta.
  match goal with
  | |- context [read_state W ?ks ?st ≫= _] =>
      destruct (read_state_reliable W ks st
                  (time_sleep W tick_sleep
                     (set_sent (sent s ++ [(raw_target l s, 1000%Z)])
                        (set_n_calls (S (n_calls s))
                           (set_clock (λ t, t + w_latency W (n_calls s))%Q
                              (set_input_queue [] s))))).1 HW)
        as (s3 & state & Hrs)
  end.
  simpl in Hrs. rewrite (bind_ret _ _ _ _ _ Hrs). cbv beta.
  rewrite (bind_ret _ _ _ _ _ eq_refl). cbv beta.
  rewrite (bind_ret _ _ _ _ _ eq_refl). cbv beta.
  destruct (bool_decide (iter_idx l = 0%nat)); by eexists.
Qed.

(** On a reliable robot the loop is still running when its fuel is used up,
    whatever the queue held and whatever arrived: no command ends it. *)
Lemma loop_yields W self fuel l s :
  reliable W → keep_running l = true →
  ∃ s' l', loop W self fuel l s = (s', Yield) ∧
           proc s' = Running (Some l') ∧ keep_running l' = true ∧
           iter_idx l' = (iter_idx l + fuel)%nat.
Proof.
  intros HW. revert l s.
  induction fuel as [|fuel IH]; intros l s Hl; simpl; rewrite Hl.
  - exists (set_proc (Running (Some l)) s), l. by rewrite Nat.add_0_r.
  - rewrite (bind_ret _ _ _ _ _ eq_refl). cbv beta.
    destruct (tick_reliable W self l
                (set_input_queue (input_queue s ++ w_arrivals W (iter_idx l)) s)
                HW) as (s1 & Ht).
    rewrite (bind_ret _ _ _ _ _ Ht). cbv beta.
    match goal with
    | |- context [loop W self fuel ?l1 s1] =>
        destruct (IH l1 s1 Hl) as (s' & l' & -> & Hp & Hk & Hi)
    end.
    exists s', l'. split_and!; try done.
    rewrite Hi. simpl. lia.
Qed.

Lemma resume_yields W self fuel l s :
  reliable W → keep_running l = true →
  ∃ s' l', resume W self fuel l s = (s', Yield) ∧
           proc s' = Running (Some l') ∧ keep_running l' = true.
Proof.
  intros HW Hl.
  destruct (loop_yields W self fuel l s HW Hl) as (s' & l' & Hloop & Hp & Hk & _).
  exists s', l'. split; [| done].
  unfold resume, guarded, try_finally, try_except. by rewrite Hloop.
Qed.

(** However many steps a live control process gets on a reliable robot, it
    is alive afterwards. *)
Lemma control_process_alive W self k s l :
  reliable W → proc s = Running (Some l) → keep_running l = true →
  ∃ s' l', control_process W self k s = (s', Ret tt) ∧
           proc s' = Running (Some l') ∧ keep_running l' = true.
Proof.
  intros HW Hp Hl. unfold control_process. rewrite Hp.
  destruct k as [|n]; [by exists s, l |].
  destruct (resume_yields W self (S n) l s HW Hl) as (s' & l' & -> & Hp' & Hk).
  by exists s', l'.
Qed.

(** C2: the loop body never looks at [cmd].  After [stop] has put a STOP
    command, three iterations of a live loop consume it and leave the loop
    running, with [keep_running] still true.  Likewise for a drained batch
    of a STOP command and a servo command: the loop goes on, and what it
    sends to the robot is the pose left in the slot of the STOP command. *)
Theorem stop_command_ignored :
  (∃ l, proc (stop calm arm false 3 (pending [])).1 = Running (Some l) ∧
        keep_running l = true ∧ iter_idx l = 3%nat ∧
        input_queue (stop calm arm false 3 (pending [])).1 = [] ∧
        n_put (stop calm arm false 3 (pending [])).1 = 1%nat) ∧
  (∃ l, proc (control_process calm arm 2
                (pending [stop_entry pose_c; servo pose_b 10])).1 =
          Running (Some l) ∧
        keep_running l = true ∧ iter_idx l = 2%nat ∧
        (sent (control_process calm arm 2
                 (pending [stop_entry pose_c; servo pose_b 10])).1).*1 =
          [pose_c; pose_c]).
Proof. split; eexists; vm_compute; split_and!; reflexivity. Qed.

(** C8: on a reliable robot [stop] with [wait] never returns.  The STOP
    command is enqueued, but the join is still blocked after any number [k] of
    further steps of the control process, which stays alive. *)
Theorem stop_wait_never_returns W self k s l :
  reliable W → proc s = Running (Some l) → keep_running l = true →
  (length (input_queue s) < buffer_size)%nat →
  (stop W self true k s).2 = Yield.
Proof.
  intros HW Hp Hl Hlen. unfold stop.
  assert (∃ s1, input_queue_put W
                         {| m_cmd := Command.value Command.STOP;
                            m_target_pose := None;
                            m_duration := None;
                            m_target_time := None |} s = (s1, Ret tt) ∧
                       proc s1 = Running (Some l)) as (s1 & Hput & Hp1).
  { unfold input_queue_put. rewrite bool_decide_eq_false_2 by lia.
    by eexists. }
  rewrite (bind_ret _ _ _ _ _ Hput). cbv beta.
  destruct (control_process_alive W self k s1 l HW Hp1 Hl)
    as (s2 & l2 & Hcp & Hp2 & _).
  rewrite (bind_ret _ _ _ _ _ Hcp). cbv beta.
  unfold when, stop_wait, Process_join, mbind, Py_bind, bind.
  by rewrite Hp2.
Qed.

Lemma stop_wait_never_returns_witness :
  reliable calm ∧ proc (pending []) = Running (Some at_home) ∧
  keep_running at_home = true ∧
  (length (input_queue (pending [])) < buffer_size)%nat ∧
  (stop calm arm true 40 (pending [])).2 = Yield.
Proof.
  assert (Hlen : (length (input_queue (pending [])) < buffer_size)%nat).
  { unfold buffer_size. simpl. lia. }
  split_and!; [by intros k | reflexivity | reflexivity | exact Hlen |].
  exact (stop_wait_never_returns calm arm 40 (pending []) at_home
           (λ _, eq_refl) eq_refl eq_refl Hlen).
Defined.

(** ** Timing *)

(** C3 (as amended): an iteration wakes up from a relative sleep.  Its wake
    time is the time at which [write_angles] returned plus the duration
    passed to [time.sleep] (plus the overshoot of the sleep); neither the
    start time [curr_t] nor the iteration index enters it. *)
Theorem tick_wakes_after_relative_sleep W self l s :
  w_fault W (n_calls s) = None →
  wakes (tick W self l s).1 =
    (wakes s ++
     [(clock s + w_latency W (n_calls s) + tick_sleep
       + w_oversleep W (S (n_calls s)))%Q])%list.
Proof.
  intros Hk. destruct (tick_dispatch W self l s Hk) as (rest & -> & ->).
  rewrite (bind_ret _ _ _ _ _ eq_refl). cbv beta.
  rewrite keeps_at by frame. reflexivity.
Qed.

Lemma tick_wakes_after_relative_sleep_witness :
  w_fault calm (n_calls (pending [])) = None ∧
  wakes (tick calm arm at_home (pending [])).1 =
    (wakes (pending []) ++
     [(clock (pending []) + w_latency calm (n_calls (pending [])) + tick_sleep
       + w_oversleep calm (S (n_calls (pending []))))%Q])%list.
Proof.
  split; [reflexivity |].
  apply (tick_wakes_after_relative_sleep calm arm at_home (pending [])).
  reflexivity.
Defined.

(** C3 (as stated) fails.  At 125 Hz, with a robot that answers within a
    millisecond, the first two wake times are not [curr_t + dt] and
    [curr_t + 2 * dt], and they are not [dt] apart; and a controller
    configured for 10 Hz wakes at the very same times. *)
Lemma wake_times_not_absolute :
  ∃ l w1 w2,
    proc (control_process calm arm 3 (launched calm arm)).1 = Running (Some l) ∧
    wakes (control_process calm arm 3 (launched calm arm)).1 = [w1; w2] ∧
    ¬ (w1 == curr_t l + 1 * dt l)%Q ∧
    ¬ (w2 == curr_t l + 2 * dt l)%Q ∧
    ¬ (w2 - w1 == dt l)%Q ∧
    wakes (control_process calm arm_10hz 3 (launched calm arm_10hz)).1 =
      [w1; w2].
Proof.
  eexists _, _, _. split; [vm_compute; reflexivity |].
  split; [vm_compute; reflexivity |].
  split_and!; try (vm_compute; discriminate).
  vm_compute; reflexivity.
Qed.

(** ** Transport errors *)

Lemma tick_fault W self l s e :
  w_fault W (n_calls s) = Some e →
  tick W self l s =
    (set_n_calls (S (n_calls s))
       (set_clock (λ t, t + w_latency W (n_calls s))%Q (set_input_queue [] s)),
     Raise e).
Proof.
  intros Hk. unfold tick.
  rewrite (bind_ret _ _ _ _ _ (drain_target_spec W l s)). cbv beta.
  by rewrite (bind_raise _ _ _ _ _
                (write_angles_fault W _ _ (set_input_queue [] s) _ Hk)).
Qed.

(** The first failing call among the read-backs of an iteration. *)
Lemma read_state_fault W keys state s j e :
  (∀ i, (n_calls s ≤ i < j)%nat → w_fault W i = None) →
  (n_calls s ≤ j < n_calls s + length keys)%nat →
  w_fault W j = Some e →
  ∃ s', read_state W keys state s = (s', Raise e) ∧ n_calls s' = S j.
Proof.
  revert state s. induction keys as [|key keys IH]; intros state s Hbefore Hj He.
  { simpl in Hj. lia. }
  simpl.
  destruct (decide (j = n_calls s)) as [-> | Hne].
  - rewrite (bind_raise _ _ _ _ _ (get_angles_fault W s e He)). by eexists.
  - rewrite (bind_ret _ _ _ _ _
               (get_angles_ok W s (Hbefore (n_calls s) ltac:(lia)))). cbv beta.
    destruct (IH (<[key := w_angles W (n_calls s)]> state)
                (set_n_calls (S (n_calls s))
                   (set_clock (λ t, t + w_latency W (n_calls s))%Q s)))
      as (s' & Hs' & Hn); [| | done |].
    + intros i Hi. apply Hbefore. simpl in Hi. lia.
    + simpl in *. lia.
    + exists s'. by rewrite Hs'.
Qed.

(** The first failing call of an iteration, the dispatch or a read-back,
    ends the iteration with its exception. *)
Lemma tick_first_fault W self l s j e :
  (∀ i, (n_calls s ≤ i < j)%nat → w_fault W i = None) →
  (n_calls s ≤ j ≤ n_calls s + length (receive_keys self))%nat →
  w_fault W j = Some e →
  ∃ s', tick W self l s = (s', Raise e) ∧ n_calls s' = S j ∧
        stdout s' = stdout s ∧ (j = n_calls s → sent s' = sent s).
Proof.
  intros Hbefore Hj He.
  destruct (decide (j = n_calls s)) as [-> | Hne].
  { rewrite (tick_fault W self l s e He). by eexists. }
  assert (Hw : w_fault W (n_calls s) = None) by (apply Hbefore; lia).
  destruct (tick_dispatch W self l s Hw) as (rest & -> & ->).
  rewrite (bind_ret _ _ _ _ _ eq_refl). cbv beta.
  match goal with
  | |- context [read_state W ?ks ?st ≫= _] =>
      match goal with
      | |- context [mbind _ (read_state W ks st) ?s2] =>
          destruct (read_state_fault W ks st s2 j e) as (s' & Hrs & Hn);
            [| | done | rewrite (bind_raise _ _ _ _ _ Hrs)]
      end
  end.
  - intros i Hi. apply Hbefore. simpl in Hi. lia.
  - simpl. lia.
  - exists s'. split_and!; [done | done | | done].
    by rewrite (keeps_result stdout _ _ _ _
                  ltac:(apply keeps_read_state; frame) Hrs).
Qed.

(** C4 (as amended): the first exception that a call on the actuator
    transport raises inside the loop, be it the dispatch [write_angles] or a
    read-back [get_angles], ends the loop.  It is caught by the handler
    around the loop and printed, the finally block sets the readiness event,
    and the process exits; no further call is made on the client, and when
    it was the dispatch that failed, the pose is not sent. *)
Theorem transport_fault_ends_loop W self k s l j e :
  proc s = Running (Some l) → keep_running l = true →
  (∀ i, (n_calls s ≤ i < j)%nat → w_fault W i = None) →
  (n_calls s ≤ j ≤ n_calls s + length (receive_keys self))%nat →
  w_fault W j = Some e → is_Exception e = true →
  proc (control_process W self (S k) s).1 =
    Exited (if verbose self then Some (NameError "robot_ip") else None) ∧
  n_calls (control_process W self (S k) s).1 = S j ∧
  stdout (control_process W self (S k) s).1 =
    (stdout s ++ [error_line e])%list ∧
  ready_event (control_process W self (S k) s).1 = true ∧
  (j = n_calls s → sent (control_process W self (S k) s).1 = sent s).
Proof.
  intros Hp Hl Hbefore Hj Hk He. unfold control_process. rewrite Hp.
  unfold resume, guarded, try_finally, try_except. simpl loop. rewrite Hl.
  rewrite (bind_ret _ _ _ _ _ eq_refl). cbv beta.
  destruct (tick_first_fault W self l
              (set_input_queue (input_queue s ++ w_arrivals W (iter_idx l)) s)
              j e Hbefore Hj Hk) as (s' & Ht & Hn & Hout & Hsent).
  rewrite (bind_raise _ _ _ _ _ Ht). rewrite He. unfold cleanup.
  simpl in Hout, Hsent.
  destruct (verbose self); simpl; rewrite Hn, Hout; split_and!; done.
Qed.

Lemma transport_fault_ends_loop_witness :
  proc (pending [servo pose_b 10]) = Running (Some at_home) ∧
  keep_running at_home = true ∧
  (∀ i, (n_calls (pending [servo pose_b 10]) ≤ i < 1)%nat →
        w_fault (faulty_at 1) i = None) ∧
  (n_calls (pending [servo pose_b 10]) ≤ 1 ≤
     n_calls (pending [servo pose_b 10]) + length (receive_keys arm))%nat ∧
  w_fault (faulty_at 1) 1 = Some (ClientError "timed out") ∧
  is_Exception (ClientError "timed out") = true ∧
  proc (control_process (faulty_at 1) arm 5 (pending [servo pose_b 10])).1 =
    Exited (if verbose arm then Some (NameError "robot_ip") else None) ∧
  n_calls (control_process (faulty_at 1) arm 5 (pending [servo pose_b 10])).1 =
    2%nat ∧
  stdout (control_process (faulty_at 1) arm 5 (pending [servo pose_b 10])).1 =
    (stdout (pending [servo pose_b 10]) ++
     [error_line (ClientError "timed out")])%list ∧
  ready_event
    (control_process (faulty_at 1) arm 5 (pending [servo pose_b 10])).1 =
    true ∧
  (1%nat = n_calls (pending [servo pose_b 10]) →
   sent (control_process (faulty_at 1) arm 5 (pending [servo pose_b 10])).1 =
     sent (pending [servo pose_b 10])).
Proof.
  assert (Hbefore : ∀ i, (n_calls (pending [servo pose_b 10]) ≤ i < 1)%nat →
                         w_fault (faulty_at 1) i = None).
  { intros i Hi. simpl in Hi. assert (i = 0%nat) as -> by lia. reflexivity. }
  assert (Hj : (n_calls (pending [servo pose_b 10]) ≤ 1 ≤
                  n_calls (pending [servo pose_b 10])
                  + length (receive_keys arm))%nat).
  { simpl. lia. }
  split; [reflexivity |]. split; [reflexivity |].
  split; [exact Hbefore |]. split; [exact Hj |].
  split; [reflexivity |]. split; [reflexivity |].
  exact (transport_fault_ends_loop (faulty_at 1) arm 4
           (pending [servo pose_b 10]) at_home 1 (ClientError "timed out")
           eq_refl eq_refl Hbefore Hj eq_refl eq_refl).
Defined.

(** C4 (as stated) fails.  The robot times out once, on the first
    [write_angles] of the loop (its third call overall).  The process is
    given five steps; it has exited after that one failure, without having
    sent a pose and without a fourth call on the client. *)
Lemma single_fault_is_fatal :
  proc (control_process (faulty_at 2) arm 5 (launched (faulty_at 2) arm)).1 =
    Exited None ∧
  sent (control_process (faulty_at 2) arm 5 (launched (faulty_at 2) arm)).1 =
    [] ∧
  n_calls (control_process (faulty_at 2) arm 5 (launched (faulty_at 2) arm)).1 =
    3%nat.
Proof. vm_compute. split_and!; reflexivity. Qed.

(** ** The exit paths of [run] *)

Lemma cleanup_sets_ready self s :
  (cleanup self s).2 ≠ Yield ∧ ready_event (cleanup self s).1 = true.
Proof. unfold cleanup. by destruct (verbose self). Qed.

(** Whatever is run inside the try statement of [run]: when the statement is
    left, the readiness event is set. *)
Lemma guarded_exit_ready self body s :
  (guarded self body s).2 ≠ Yield →
  ready_event (guarded self body s).1 = true.
Proof.
  unfold guarded, try_finally.
  destruct (try_except body (on_error) s) as [s1 r].
  destruct (cleanup_sets_ready self s1) as [Hc Hr].
  destruct r as [a|e|]; [| | done];
    by destruct (cleanup self s1) as [s2 [[]|e'|]].
Qed.

(** C5: on every exit path of [run], by return or by an exception, however
    far it got, the readiness event is set afterwards.  [Yield] is the one
    outcome that is not an exit: the loop is still running. *)
Theorem every_exit_sets_ready_event W self fuel s :
  (run W self fuel s).2 ≠ Yield →
  ready_event (run W self fuel s).1 = true.
Proof. apply guarded_exit_ready. Qed.

Lemma every_exit_sets_ready_event_witness :
  (run (faulty_at 1) arm 5 (launched (faulty_at 1) arm)).2 ≠ Yield ∧
  ready_event (run (faulty_at 1) arm 5 (launched (faulty_at 1) arm)).1 = true.
Proof.
  assert (H : (run (faulty_at 1) arm 5 (launched (faulty_at 1) arm)).2 ≠ Yield)
    by (vm_compute; discriminate).
  split; [exact H |].
  exact (every_exit_sets_ready_event (faulty_at 1) arm 5
           (launched (faulty_at 1) arm) H).
Defined.

(** The same for a process that is taken up again inside the loop. *)
Lemma resume_exit_sets_ready_event W self fuel l s :
  (resume W self fuel l s).2 ≠ Yield →
  ready_event (resume W self fuel l s).1 = true.
Proof. apply guarded_exit_ready. Qed.

(** Nothing inside [run] ends the process: an exit is an exit of [run]. *)
Lemma keeps_stays_alive {A} (m : Py A) : keeps proc m → stays_alive m.
Proof. intros Hm s l Hs. exists l. by rewrite Hm. Qed.

Lemma stays_alive_bind {A B} (m : Py A) (k : A → Py B) :
  stays_alive m → (∀ a, stays_alive (k a)) → stays_alive (m ≫= k).
Proof.
  intros Hm Hk s l Hs. unfold mbind, Py_bind, bind.
  destruct (Hm s l Hs) as [l1 H1].
  destruct (m s) as [s1 [a|e|]]; simpl in *; [| by eauto | by eauto].
  apply (Hk a s1 l1 H1).
Qed.

Lemma loop_stays_alive W self fuel l : stays_alive (loop W self fuel l).
Proof.
  revert l. induction fuel as [|fuel IH]; intros l; simpl;
    destruct (keep_running l); try (apply keeps_stays_alive; frame).
  - intros s l0 _. by eexists.
  - apply stays_alive_bind; [apply keeps_stays_alive; frame |].
    intros _. apply stays_alive_bind; [apply keeps_stays_alive; frame | done].
Qed.

Lemma guarded_stays_alive self (body : Py unit) :
  stays_alive body → stays_alive (guarded self body).
Proof.
  intros Hb s l Hs. unfold guarded, try_finally, try_except.
  destruct (Hb s l Hs) as [l1 H1].
  assert (Hc : ∀ s0, proc (cleanup self s0).1 = proc s0)
    by (intros s0; apply keeps_at; frame).
  destruct (body s) as [s1 [[]|e|]]; simpl in *.
  - specialize (Hc s1). destruct (cleanup self s1) as [s2 [[]|e'|]];
      simpl in *; exists l1; congruence.
  - destruct (is_Exception e).
    + specialize (Hc (set_stdout (stdout s1 ++ [error_line e]) s1)).
      unfold on_error, print, modify.
      destruct (cleanup self _) as [s2 [[]|e'|]];
        simpl in *; exists l1; congruence.
    + specialize (Hc s1). destruct (cleanup self s1) as [s2 [[]|e'|]];
        simpl in *; exists l1; congruence.
  - by exists l1.
Qed.

(** Seen from the orchestrator: a control process that was alive and has
    exited has set the readiness event. *)
Lemma exited_process_has_signaled W self k s l o :
  proc s = Running l →
  proc (control_process W self k s).1 = Exited o →
  ready_event (control_process W self k s).1 = true.
Proof.
  intros Hs. unfold control_process. rewrite Hs.
  assert (Hgo : ∀ body : Py unit,
            stays_alive body →
            proc (finish (guarded self body s)).1 = Exited o →
            ready_event (finish (guarded self body s)).1 = true).
  { intros body Hb.
    pose proof (guarded_exit_ready self body s) as Hr.
    destruct (guarded_stays_alive self body Hb s l Hs) as [l1 H1].
    destruct (guarded self body s) as [s1 [[]|e|]]; simpl in *;
      [by intros _; apply Hr | by intros _; apply Hr | congruence]. }
  destruct k as [|n]; [simpl; congruence |].
  destruct l as [l|].
  - apply Hgo, loop_stays_alive.
  - apply Hgo. apply stays_alive_bind; [apply keeps_stays_alive; frame |].
    intros l0. apply loop_stays_alive.
Qed.

(** A launcher that waits after the process has exited is not held up. *)
Lemma wait_after_exit W self fuel s timeout :
  (run W self fuel s).2 ≠ Yield →
  ready_event_wait timeout (run W self fuel s).1 =
    ((run W self fuel s).1, Ret true).
Proof.
  intros H%guarded_exit_ready. unfold ready_event_wait.
  fold (run W self fuel) in H. by rewrite H.
Qed.

(** ** The command methods *)

Lemma Qle_bool_false (x y : Q) : (y < x)%Q → Qle_bool x y = false.
Proof.
  intros Hlt. destruct (Qle_bool x y) eqn:E; [| done].
  apply Qle_bool_iff in E. lra.
Qed.

(** C6: both command methods check their argument before they touch the
    queue.  [servoL] with a duration below [1 / frequency] and
    [schedule_waypoint] with a target time that is not after [time.time()]
    raise and leave the state as it was; a call that returns has appended
    exactly one command, which carries the argument as given; and a call
    that raises, for whatever reason, has changed nothing. *)
Theorem command_methods_validate W self pose x s :
  ((x < 1 / frequency self)%Q →
   ∃ e, servoL W self pose x s = (s, Raise e)) ∧
  ((x <= clock s + w_wall_offset W)%Q →
   ∃ e, schedule_waypoint W pose x s = (s, Raise e)) ∧
  (∀ s', servoL W self pose x s = (s', Ret tt) →
     (1 / frequency self <= x)%Q ∧
     input_queue s' =
       (input_queue s ++
        [{| e_cmd := 1;
            e_target_pose := pose;
            e_duration := x;
            e_target_time := e_target_time (w_residue W (n_put s)) |}])%list) ∧
  (∀ s', schedule_waypoint W pose x s = (s', Ret tt) →
     (clock s + w_wall_offset W < x)%Q ∧
     input_queue s' =
       (input_queue s ++
        [{| e_cmd := 2;
            e_target_pose := pose;
            e_duration := e_duration (w_residue W (n_put s));
            e_target_time := x |}])%list) ∧
  (∀ s' e, servoL W self pose x s = (s', Raise e) → s' = s) ∧
  (∀ s' e, schedule_waypoint W pose x s = (s', Raise e) → s' = s).
Proof.
  split_and!.
  - intros Hx. unfold servoL, is_alive, float_div, mbind, Py_bind, bind.
    simpl. destruct (proc s); simpl; eauto.
    destruct (Qeq_bool (frequency self) 0); simpl; eauto.
    rewrite Qle_bool_false by done. simpl. eauto.
  - intros Hx. unfold schedule_waypoint, time_time, mbind, Py_bind, bind.
    simpl. destruct (Qle_bool x (clock s + w_wall_offset W)) eqn:E.
    + simpl. eauto.
    + assert (Qle_bool x (clock s + w_wall_offset W) = true)
        by by apply Qle_bool_iff.
      congruence.
  - intros s'. unfold servoL, is_alive, float_div, input_queue_put.
    unfold mbind, Py_bind, bind. simpl.
    destruct (proc s); simpl; try done.
    destruct (Qeq_bool (frequency self) 0); simpl; try done.
    destruct (Qle_bool (1 / frequency self) x) eqn:E; simpl; try done.
    apply Qle_bool_iff in E.
    destruct (bool_decide (length pose = 6%nat)); simpl; try done.
    destruct (bool_decide (buffer_size ≤ length (input_queue s))%nat);
      simpl; try done.
    intros [= <-]. done.
  - intros s'. unfold schedule_waypoint, time_time, input_queue_put.
    unfold mbind, Py_bind, bind. simpl.
    destruct (Qle_bool x (clock s + w_wall_offset W)) eqn:E; simpl; try done.
    assert (clock s + w_wall_offset W < x)%Q.
    { apply Qnot_le_lt. intros Hle%Qle_bool_iff. congruence. }
    destruct (bool_decide (length pose = 6%nat)); simpl; try done.
    destruct (bool_decide (buffer_size ≤ length (input_queue s))%nat);
      simpl; try done.
    intros [= <-]. done.
  - intros s' e. unfold servoL, is_alive, float_div, input_queue_put.
    unfold mbind, Py_bind, bind. simpl.
    destruct (proc s); simpl; try by intros [= <- _].
    destruct (Qeq_bool (frequency self) 0); simpl; try by intros [= <- _].
    destruct (Qle_bool (1 / frequency self) x); simpl; try by intros [= <- _].
    destruct (bool_decide (length pose = 6%nat)); simpl; try by intros [= <- _].
    destruct (bool_decide (buffer_size ≤ length (input_queue s))%nat);
      simpl; by intros [= <- _].
  - intros s' e. unfold schedule_waypoint, time_time, input_queue_put.
    unfold mbind, Py_bind, bind. simpl.
    destruct (Qle_bool x (clock s + w_wall_offset W)); simpl;
      try by intros [= <- _].
    destruct (bool_decide (length pose = 6%nat)); simpl; try by intros [= <- _].
    destruct (bool_decide (buffer_size ≤ length (input_queue s))%nat);
      simpl; by intros [= <- _].
Qed.

Lemma command_methods_validate_witness :
  ((1 # 1000) < 1 / frequency arm)%Q ∧
  ∃ e, servoL calm arm pose_b (1 # 1000) (pending []) = (pending [], Raise e).
Proof.
  split; [reflexivity |].
  apply (proj1 (command_methods_validate calm arm pose_b (1 # 1000)
                  (pending []))).
  reflexivity.
Defined.

(** ** Launch *)

(** [start_wait] on a given state: it blocks for the timeout unless the
    event is set, and its outcome is the liveness of the process alone. *)
Lemma start_wait_fails_iff_not_alive self s :
  (0 <= launch_timeout self)%Q →
  (clock s <= clock (start_wait self s).1)%Q ∧
  (clock (start_wait self s).1 <= clock s + launch_timeout self)%Q ∧
  ((start_wait self s).2 = Raise AssertionError ↔ ∀ l, proc s ≠ Running l) ∧
  ((start_wait self s).2 = Ret tt ↔ ∃ l, proc s = Running l).
Proof.
  intros Ht. unfold start_wait, ready_event_wait, is_alive.
  unfold mbind, Py_bind, bind.
  destruct s as [t q np rb re nc se wk so ne pr]; cbn.
  destruct re, pr as [|l|o]; cbn;
    (split_and!; [lra | lra | |]); split; try done; eauto;
    first [ by intros [l' ?] | intros H; by destruct (H l) ].
Qed.






(** ** The constructor *)

(** C9: the constructor itself opens the client connection, in the context
    of its caller and without the process having been started; and when
    [start_client] raises an [Exception], the constructor prints it and
    leaves through [exit(1)], that is with [SystemExit], which no
    [except Exception] of a caller catches. *)
Theorem init_connects_and_exits W self s :
  net (__init__ W self s).1 = (net s ++ [Connect (robot_ip self) 5001])%list ∧
  proc (__init__ W self s).1 = proc s ∧
  ∀ e, w_start_client W = Some e → is_Exception e = true →
    (__init__ W self s).2 = Raise (SystemExit 1) ∧
    (∀ handler, try_except (__init__ W self) handler s = __init__ W self s) ∧
    n_calls (__init__ W self s).1 = n_calls s.
Proof.
  unfold __init__. rewrite (bind_ret _ _ _ _ _ eq_refl). cbv beta.
  destruct (w_start_client W) as [e|] eqn:E.
  - destruct (is_Exception e) eqn:He.
    + assert (Hst : try_except (start_client W self)
                (λ e, print ("Failed to start elephant client: " ++ exn_str e);;
                      exit 1) (set_input_queue [] s) =
              (set_stdout
                 (stdout s ++ ["Failed to start elephant client: " ++ exn_str e])
                 (set_net (net s ++ [Connect (robot_ip self) 5001])
                    (set_input_queue [] s)),
               Raise (SystemExit 1))).
      { unfold try_except, start_client. rewrite E. simpl. by rewrite He. }
      split_and!.
      * by rewrite (bind_raise _ _ _ _ _ Hst).
      * by rewrite (bind_raise _ _ _ _ _ Hst).
      * intros e' [= <-] _. split_and!.
        -- by rewrite (bind_raise _ _ _ _ _ Hst).
        -- intros handler. unfold try_except at 1.
           rewrite (bind_ret _ _ _ _ _ eq_refl). cbv beta.
           by rewrite (bind_raise _ _ _ _ _ Hst).
        -- by rewrite (bind_raise _ _ _ _ _ Hst).
    + assert (Hst : try_except (start_client W self)
                (λ e, print ("Failed to start elephant client: " ++ exn_str e);;
                      exit 1) (set_input_queue [] s) =
              (set_net (net s ++ [Connect (robot_ip self) 5001])
                 (set_input_queue [] s),
               Raise e)).
      { unfold try_except, start_client. rewrite E. simpl. by rewrite He. }
      split_and!.
      * by rewrite (bind_raise _ _ _ _ _ Hst).
      * by rewrite (bind_raise _ _ _ _ _ Hst).
      * intros e' [= <-] He'. congruence.
  - assert (Hst : try_except (start_client W self)
                (λ e, print ("Failed to start elephant client: " ++ exn_str e);;
                      exit 1) (set_input_queue [] s) =
              (set_net (net s ++ [Connect (robot_ip self) 5001])
                 (set_input_queue [] s),
               Ret tt)).
    { unfold try_except, start_client. by rewrite E. }
    rewrite (bind_ret _ _ _ _ _ Hst). cbv beta.
    split_and!; [| | done].
    + rewrite keeps_at by frame. reflexivity.
    + rewrite keeps_at by frame. reflexivity.
Qed.

Lemma init_connects_and_exits_witness :
  w_start_client unreachable = Some (ClientError "connection refused") ∧
  is_Exception (ClientError "connection refused") = true ∧
  (__init__ unreachable arm (boot 0)).2 = Raise (SystemExit 1) ∧
  (∀ handler,
     try_except (__init__ unreachable arm) handler (boot 0) =
       __init__ unreachable arm (boot 0)) ∧
  n_calls (__init__ unreachable arm (boot 0)).1 = n_calls (boot 0).
Proof.
  split; [reflexivity |]. split; [reflexivity |].
  apply (proj2 (proj2 (init_connects_and_exits unreachable arm (boot 0)))
           (ClientError "connection refused")); reflexivity.
Defined.

(** ** Verbose mode *)

(** C10: with [verbose] set, [run] dies of [NameError] on [robot_ip].  The
    first print raises it before the loop; the handler prints the error; the
    finally block sets the readiness event and then raises the same error
    from its own print, which is the exception that leaves [run].  Nothing
    else has happened: no call on the robot, no pose sent, no snapshot
    published, the queue untouched. *)
Theorem verbose_run_raises_NameError W self fuel s :
  verbose self = true →
  run W self fuel s =
    (set_ready_event true
       (set_stdout (stdout s ++ [error_line (NameError "robot_ip")])%list s),
     Raise (NameError "robot_ip")) ∧
  (∀ s0, cleanup self s0 =
           (set_ready_event true s0, Raise (NameError "robot_ip"))) ∧
  enter W self s = (s, Raise (NameError "robot_ip")).
Proof.
  intros Hv.
  assert (He : enter W self s = (s, Raise (NameError "robot_ip"))).
  { unfold enter. by rewrite Hv. }
  assert (Hc : ∀ s0, cleanup self s0 =
                     (set_ready_event true s0, Raise (NameError "robot_ip"))).
  { intros s0. unfold cleanup. by rewrite Hv. }
  split_and!; [| done | done].
  unfold run, guarded, try_finally, try_except.
  rewrite (bind_raise _ _ _ _ _ He). simpl. by rewrite Hc.
Qed.

Lemma verbose_run_raises_NameError_witness :
  verbose arm_verbose = true ∧
  run calm arm_verbose 5 (launched calm arm_verbose) =
    (set_ready_event true
       (set_stdout (stdout (launched calm arm_verbose) ++
                    [error_line (NameError "robot_ip")])%list
          (launched calm arm_verbose)),
     Raise (NameError "robot_ip")).
Proof.
  split; [reflexivity |].
  apply (proj1 (verbose_run_raises_NameError calm arm_verbose 5
                  (launched calm arm_verbose) eq_refl)).
Defined.

(** * Further properties of the controller *)

(** ** What one iteration does to the state *)

Lemma read_state_effects W keys state s :
  reliable W →
  ∃ s' state',
    read_state W keys state s = (s', Ret state') ∧
    n_calls s' = (n_calls s + length keys)%nat ∧
    dom state' = list_to_set keys ∪ dom state ∧
    (causal W → (clock s <= clock s')%Q).
Proof.
  intros HW. revert state s.
  induction keys as [|key keys IH]; intros state s; simpl.
  { exists s, state.
    split_and!; [done | lia | by rewrite (left_id_L ∅ (∪)) | intros _; lra]. }
  rewrite (bind_ret _ _ _ _ _ (get_angles_ok W s (HW _))). cbv beta.
  destruct (IH (<[key := w_angles W (n_calls s)]> state)
              (set_n_calls (S (n_calls s))
                 (set_clock (λ t, t + w_latency W (n_calls s))%Q s)))
    as (s' & state' & -> & Hn & Hd & Hc).
  exists s', state'. split_and!; [done | simpl in Hn; lia | |].
  - rewrite Hd, dom_insert_L, (assoc_L (∪)).
    by rewrite (comm_L (∪) (list_to_set keys)).
  - intros HC. specialize (Hc HC). simpl in Hc.
    destruct (HC (n_calls s)) as [Hl _]. lra.
Qed.

(** Everything a successful iteration changes, on a robot that answers. *)
Lemma tick_effects W self l s :
  reliable W →
  ∃ s' snap l',
    tick W self l s = (s', Ret l') ∧
    ring_buffer s' = (ring_buffer s ++ [snap])%list ∧
    dom (channels snap) = list_to_set (receive_keys self) ∧
    robot_receive_timestamp snap = (clock s' + w_wall_offset W)%Q ∧
    n_calls s' = (n_calls s + S (length (receive_keys self)))%nat ∧
    ready_event s' = ready_event s || bool_decide (iter_idx l = 0%nat) ∧
    sent s' = (sent s ++ [(raw_target l s, 1000%Z)])%list ∧
    input_queue s' = [] ∧
    proc s' = proc s ∧
    target_pose l' = raw_target l s ∧
    iter_idx l' = S (iter_idx l) ∧
    keep_running l' = keep_running l ∧
    (causal W → (clock s + tick_sleep <= clock s')%Q).
Proof.
  intros HW. destruct (tick_dispatch W self l s (HW _)) as (rest & -> & ->).
  rewrite (bind_ret _ _ _ _ _ eq_refl). cbv beta.
  match goal with
  | |- context [mbind _ (read_state W ?ks ?st) ?s2] =>
      destruct (read_state_effects W ks st s2 HW)
        as (s3 & state & Hrs & Hn & Hd & Hc);
      pose proof (keeps_result ring_buffer _ _ _ _
                    ltac:(apply keeps_read_state; frame) Hrs) as Hrb;
      pose proof (keeps_result ready_event _ _ _ _
                    ltac:(apply keeps_read_state; frame) Hrs) as Hre;
      pose proof (keeps_result sent _ _ _ _
                    ltac:(apply keeps_read_state; frame) Hrs) as Hse;
      pose proof (keeps_result input_queue _ _ _ _
                    ltac:(apply keeps_read_state; frame) Hrs) as Hiq;
      pose proof (keeps_result proc _ _ _ _
                    ltac:(apply keeps_read_state; frame) Hrs) as Hpr
  end.
  rewrite (bind_ret _ _ _ _ _ Hrs). cbv beta.
  rewrite (bind_ret _ _ _ _ _ eq_refl). cbv beta.
  rewrite (bind_ret _ _ _ _ _ eq_refl). cbv beta.
  simpl in Hrb, Hre, Hse, Hiq, Hpr, Hn, Hc.
  rewrite dom_empty_L, (right_id_L ∅ (∪)) in Hd.
  destruct (bool_decide (iter_idx l = 0%nat)); simpl;
    eexists _, _, _; (split; [reflexivity |]); simpl;
    rewrite ?Hrb, ?Hre, ?Hse, ?Hiq, ?Hpr, ?Hn, ?orb_true_r, ?orb_false_r;
    (split_and!; try done; try lia;
     intros HC; specialize (Hc HC);
     destruct (HC (n_calls s)) as [Hl _];
     destruct (HC (S (n_calls s))) as [_ Ho]; lra).
Qed.


Lemma calm_reliable : reliable calm.
Proof. by intros k. Qed.

Lemma calm_causal : causal calm.
Proof. intros k. split; vm_compute; discriminate. Qed.


(** X2: the readiness event is set by the iteration with index 0 and by no
    other: after an iteration the event is set exactly when it was set before
    or the iteration was the first.  The loop never clears it. *)
Theorem tick_sets_ready_on_first_iteration W self l s :
  reliable W →
  ready_event (tick W self l s).1 =
    ready_event s || bool_decide (iter_idx l = 0%nat).
Proof.
  intros HW.
  by destruct (tick_effects W self l s HW)
    as (s' & snap & l' & -> & _ & _ & _ & _ & Hre & _).
Qed.

Lemma tick_sets_ready_on_first_iteration_witness :
  reliable calm ∧
  ready_event (tick calm arm at_home (pending [])).1 =
    ready_event (pending []) || bool_decide (iter_idx at_home = 0%nat).
Proof.
  split; [exact calm_reliable |].
  exact (tick_sets_ready_on_first_iteration calm arm at_home (pending [])
           calm_reliable).
Defined.

(** ** What [n] iterations do *)

Lemma inject_Z_succ (n : nat) :
  (inject_Z (Z.of_nat (S n)) == inject_Z (Z.of_nat n) + 1)%Q.
Proof. rewrite Nat2Z.inj_succ, <- Z.add_1_r, inject_Z_plus. reflexivity. Qed.

Lemma loop_effects W self n l s :
  reliable W → keep_running l = true →
  ∃ s' l',
    loop W self n l s = (s', Yield) ∧
    proc s' = Running (Some l') ∧
    length (ring_buffer s') = (length (ring_buffer s) + n)%nat ∧
    n_calls s' = (n_calls s + n * S (length (receive_keys self)))%nat ∧
    length (sent s') = (length (sent s) + n)%nat ∧
    (ready_event s = true → ready_event s' = true) ∧
    ((0 < n)%nat → iter_idx l = 0%nat → ready_event s' = true) ∧
    (causal W →
     (clock s + inject_Z (Z.of_nat n) * tick_sleep <= clock s')%Q) ∧
    iter_idx l' = (iter_idx l + n)%nat.
Proof.
  intros HW. revert l s.
  induction n as [|n IH]; intros l s Hl; simpl loop; rewrite Hl.
  - exists (set_proc (Running (Some l)) s), l.
    split_and!; try (simpl; done); try (simpl; lia). intros _.
    change (clock s + 0 * tick_sleep <= clock s)%Q. lra.
  - rewrite (bind_ret _ _ _ _ _ eq_refl). cbv beta.
    destruct (tick_effects W self l
                (set_input_queue (input_queue s ++ w_arrivals W (iter_idx l)) s)
                HW)
      as (s1 & snap & l1 & Ht & Hrb & _ & _ & Hn & Hre & Hse & _ & _ & _ & Hi1
          & Hk1 & Hc).
    rewrite (bind_ret _ _ _ _ _ Ht). cbv beta.
    destruct (IH l1 s1 ltac:(congruence))
      as (s' & l' & -> & Hp & Hrb' & Hn' & Hse' & Hre' & _ & Hc' & Hi').
    simpl in Hrb, Hn, Hre, Hse, Hc.
    exists s', l'. split_and!; try done.
    + rewrite Hrb', Hrb, length_app. simpl. lia.
    + rewrite Hn', Hn. lia.
    + rewrite Hse', Hse, length_app. simpl. lia.
    + intros Hr. apply Hre'. rewrite Hre, Hr. done.
    + intros _ Hi. apply Hre'. rewrite Hre.
      rewrite (bool_decide_eq_true_2 _ Hi). by rewrite orb_true_r.
    + intros HC. specialize (Hc HC). specialize (Hc' HC).
      rewrite inject_Z_succ. lra.
    + rewrite Hi', Hi1. lia.
Qed.

(** X3: on a robot that answers, [n] iterations publish exactly [n]
    snapshots, send exactly [n] poses, and make [1 + len(receive_keys)]
    calls on the client each; the loop is still running afterwards. *)
Theorem loop_accounting W self n l s :
  reliable W → keep_running l = true →
  (loop W self n l s).2 = Yield ∧
  length (ring_buffer (loop W self n l s).1) =
    (length (ring_buffer s) + n)%nat ∧
  length (sent (loop W self n l s).1) = (length (sent s) + n)%nat ∧
  n_calls (loop W self n l s).1 =
    (n_calls s + n * S (length (receive_keys self)))%nat.
Proof.
  intros HW Hl.
  by destruct (loop_effects W self n l s HW Hl)
    as (s' & l' & -> & _ & Hrb & Hn & Hse & _).
Qed.

Lemma loop_accounting_witness :
  reliable calm ∧ keep_running at_home = true ∧
  (loop calm arm 7 at_home (pending [servo pose_b 10])).2 = Yield ∧
  length (ring_buffer (loop calm arm 7 at_home (pending [servo pose_b 10])).1) =
    (length (ring_buffer (pending [servo pose_b 10])) + 7)%nat ∧
  length (sent (loop calm arm 7 at_home (pending [servo pose_b 10])).1) =
    (length (sent (pending [servo pose_b 10])) + 7)%nat ∧
  n_calls (loop calm arm 7 at_home (pending [servo pose_b 10])).1 =
    (n_calls (pending [servo pose_b 10]) + 7 * S (length (receive_keys arm)))%nat.
Proof.
  split; [exact calm_reliable |]. split; [reflexivity |].
  exact (loop_accounting calm arm 7 at_home (pending [servo pose_b 10])
           calm_reliable eq_refl).
Defined.

(** X4: the loop cannot run faster than 125 Hz, whatever [frequency] is
    configured: when no call and no sleep takes negative time, [n]
    iterations take at least [n] times the fixed sleep of 1/125 s. *)
Theorem loop_rate_bound W self n l s :
  reliable W → causal W → keep_running l = true →
  (clock s + inject_Z (Z.of_nat n) * (1 # 125) <=
     clock (loop W self n l s).1)%Q.
Proof.
  intros HW HC Hl.
  destruct (loop_effects W self n l s HW Hl)
    as (s' & l' & -> & _ & _ & _ & _ & _ & _ & Hc & _).
  specialize (Hc HC). change tick_sleep with (1 # 125)%Q in Hc.
  exact Hc.
Qed.

Lemma loop_rate_bound_witness :
  reliable calm ∧ causal calm ∧ keep_running at_home = true ∧
  (clock (pending []) + inject_Z (Z.of_nat 5) * (1 # 125) <=
     clock (loop calm arm_10hz 5 at_home (pending [])).1)%Q.
Proof.
  split; [exact calm_reliable |]. split; [exact calm_causal |].
  split; [reflexivity |].
  exact (loop_rate_bound calm arm_10hz 5 at_home (pending [])
           calm_reliable calm_causal eq_refl).
Defined.

(** Once set, the readiness event stays set: no number of iterations
    clears it. *)
Lemma loop_keeps_ready W self n l s :
  reliable W → keep_running l = true → ready_event s = true →
  ready_event (loop W self n l s).1 = true.
Proof.
  intros HW Hl Hr.
  destruct (loop_effects W self n l s HW Hl)
    as (s' & l' & -> & _ & _ & _ & _ & Hre & _).
  by apply Hre.
Qed.

(** With nothing pending and nothing arriving, the raw target is the target
    so far. *)
Lemma raw_target_empty l s : input_queue s = [] → raw_target l s = target_pose l.
Proof. intros Hq. unfold raw_target. by rewrite Hq. Qed.

(** X5: the loop holds its target.  With an empty queue and no producer,
    every one of [n] iterations sends the same pose again: the target the
    loop was entered with. *)
Theorem loop_holds_target W self n l s :
  reliable W → quiet W → keep_running l = true → input_queue s = [] →
  sent (loop W self n l s).1 =
    (sent s ++ replicate n (target_pose l, 1000%Z))%list.
Proof.
  intros HW HQ. revert l s.
  induction n as [|n IH]; intros l s Hl Hq; simpl loop; rewrite Hl.
  - simpl. by rewrite app_nil_r.
  - rewrite (bind_ret _ _ _ _ _ eq_refl). cbv beta.
    destruct (tick_effects W self l
                (set_input_queue (input_queue s ++ w_arrivals W (iter_idx l)) s)
                HW)
      as (s1 & snap & l1 & Ht & _ & _ & _ & _ & _ & Hse & Hq1 & _ & Htp & _
          & Hk1 & _).
    rewrite (bind_ret _ _ _ _ _ Ht). cbv beta.
    rewrite raw_target_empty in Hse, Htp
      by (simpl; by rewrite Hq, HQ).
    rewrite (IH l1 s1 ltac:(congruence) Hq1), Hse, Htp. simpl.
    by rewrite <- app_assoc.
Qed.

Lemma calm_quiet : quiet calm.
Proof. by intros i. Qed.

Lemma loop_holds_target_witness :
  reliable calm ∧ quiet calm ∧ keep_running at_home = true ∧
  input_queue (pending []) = [] ∧
  sent (loop calm arm 6 at_home (pending [])).1 =
    (sent (pending []) ++ replicate 6 (target_pose at_home, 1000%Z))%list.
Proof.
  split; [exact calm_reliable |]. split; [exact calm_quiet |].
  split; [reflexivity |]. split; [reflexivity |].
  exact (loop_holds_target calm arm 6 at_home (pending [])
           calm_reliable calm_quiet eq_refl eq_refl).
Defined.

(** ** Launching *)

(** The statements before the loop, on a robot that answers. *)
Lemma enter_effects W self s :
  reliable W → verbose self = false → Qeq_bool (frequency self) 0 = false →
  ∃ s' l,
    enter W self s = (s', Ret l) ∧
    keep_running l = true ∧ iter_idx l = 0%nat ∧
    dt l = (1 / frequency self)%Q ∧
    target_pose l =
      w_angles W (n_calls s + match joints_init self with
                              | Some _ => 1
                              | None => 0
                              end)%nat ∧
    sent s' =
      (sent s ++ match joints_init self with
                 | Some joints => [(joints, 1000%Z)]
                 | None => []
                 end)%list ∧
    ready_event s' = ready_event s ∧
    ring_buffer s' = ring_buffer s ∧
    proc s' = proc s.
Proof.
  intros HW Hv Hf. unfold enter. rewrite Hv. simpl when.
  rewrite (bind_ret _ _ _ _ _ eq_refl). cbv beta.
  destruct (joints_init self) as [joints|].
  - rewrite (bind_ret _ _ _ _ _ (write_angles_ok W joints 1000 s (HW _))).
    cbv beta. unfold float_div. rewrite Hf.
    rewrite (bind_ret _ _ _ _ _ eq_refl). cbv beta.
    rewrite (bind_ret _ _ _ _ _ (get_angles_ok W _ (HW _))). cbv beta.
    rewrite (bind_ret _ _ _ _ _ eq_refl). cbv beta.
    eexists _, _. split; [reflexivity |]. simpl.
    split_and!; try done. by rewrite Nat.add_1_r.
  - rewrite (bind_ret _ _ _ _ _ eq_refl). cbv beta.
    unfold float_div. rewrite Hf.
    rewrite (bind_ret _ _ _ _ _ eq_refl). cbv beta.
    rewrite (bind_ret _ _ _ _ _ (get_angles_ok W _ (HW _))). cbv beta.
    rewrite (bind_ret _ _ _ _ _ eq_refl). cbv beta.
    eexists _, _. split; [reflexivity |]. simpl.
    split_and!; try done; [by rewrite Nat.add_0_r | by rewrite app_nil_r].
Qed.

(** X6: a launch that succeeds.  On a robot that answers, with [verbose]
    off and a non-zero frequency, a controller entered as a context manager
    whose process gets through the statements before the loop and at least
    one iteration returns normally: the readiness event is set, so
    [is_ready] is true, and the process is alive at the head of its loop. *)
Theorem enter_succeeds W self k s :
  reliable W → verbose self = false → Qeq_bool (frequency self) 0 = false →
  proc s = NotStarted →
  ∃ s' l,
    (∀ t, __enter__ W self (S (S k)) t s = (s', Ret tt)) ∧
    is_ready s' = (s', Ret true) ∧
    proc s' = Running (Some l) ∧
    iter_idx l = S k ∧ keep_running l = true.
Proof.
  intros HW Hv Hf Hp.
  assert (Hps : Process_start s = (set_proc (Running None) s, Ret tt))
    by (unfold Process_start; by rewrite Hp).
  destruct (enter_effects W self (set_proc (Running None) s) HW Hv Hf)
    as (s1 & l0 & He & Hk0 & Hi0 & _).
  destruct (loop_effects W self (S k) l0 s1 HW Hk0)
    as (s2 & l & Hloop & Hp2 & _ & _ & _ & _ & Hre & _ & Hi).
  assert (Hcr : control_run W self (S (S k)) (set_proc (Running None) s) =
                (s2, Ret Yield)).
  { unfold control_run. simpl proc. cbv iota.
    unfold run, guarded, try_finally, try_except.
    rewrite (bind_ret _ _ _ _ _ He). cbv beta. by rewrite Hloop. }
  specialize (Hre ltac:(lia) Hi0).
  assert (Hsw : start_wait self s2 = (s2, Ret tt)).
  { unfold start_wait, ready_event_wait, is_alive, mbind, Py_bind, bind.
    by rewrite Hre, Hp2. }
  exists s2, l. unfold is_ready. rewrite Hre.
  split_and!; try done.
  - intros t. unfold __enter__, start.
    rewrite (bind_ret _ _ _ _ _ Hps). cbv beta.
    rewrite (bind_ret _ _ _ _ _ Hcr). cbv beta. rewrite Hv. simpl when.
    destruct t; unfold mbind, Py_bind, bind, control_exit, finish.
    + by rewrite Hsw.
    + by rewrite Hsw.
  - rewrite Hi, Hi0. lia.
  - by destruct (loop_yields W self (S k) l0 s1 HW Hk0)
      as (s2' & l' & Hloop' & Hp' & Hk' & _);
      rewrite Hloop in Hloop'; injection Hloop' as <-;
      rewrite Hp2 in Hp'; injection Hp' as <-.
Qed.

Lemma enter_succeeds_witness :
  reliable calm ∧ verbose arm = false ∧ Qeq_bool (frequency arm) 0 = false ∧
  proc (__init__ calm arm (boot 0)).1 = NotStarted ∧
  ∃ s' l,
    (∀ t, __enter__ calm arm 3 t (__init__ calm arm (boot 0)).1 =
            (s', Ret tt)) ∧
    is_ready s' = (s', Ret true) ∧
    proc s' = Running (Some l) ∧
    iter_idx l = 2%nat ∧ keep_running l = true.
Proof.
  split; [exact calm_reliable |]. split; [reflexivity |].
  split; [reflexivity |]. split; [reflexivity |].
  exact (enter_succeeds calm arm 1 (__init__ calm arm (boot 0)).1
           calm_reliable eq_refl eq_refl eq_refl).
Defined.

(** X7: with [verbose] set a launch with wait finds the control process
    failed.  As soon as the process has run at all, [run] has ended with the
    [NameError], which its handler has printed, after setting the readiness
    event; [start] does not block on the event, and the robot has not been
    called.  [start] fails on its liveness assertion when the process has
    left by then, and returns normally when it has not. *)
Theorem verbose_launch_dies W self k t s :
  verbose self = true → proc s = NotStarted →
  (start W self true (S k) t s).2 =
    match t with
    | ExitsFirst => Raise AssertionError
    | ExitsLater => Ret tt
    end ∧
  error_line (NameError "robot_ip") ∈ stdout (start W self true (S k) t s).1 ∧
  ready_event (start W self true (S k) t s).1 = true ∧
  clock (start W self true (S k) t s).1 = clock s ∧
  n_calls (start W self true (S k) t s).1 = n_calls s ∧
  sent (start W self true (S k) t s).1 = sent s ∧
  ring_buffer (start W self true (S k) t s).1 = ring_buffer s.
Proof.
  intros Hv Hp. unfold start.
  assert (Hps : Process_start s = (set_proc (Running None) s, Ret tt))
    by (unfold Process_start; by rewrite Hp).
  rewrite (bind_ret _ _ _ _ _ Hps). cbv beta.
  assert (He : enter W self (set_proc (Running None) s) =
               (set_proc (Running None) s, Raise (NameError "robot_ip"))).
  { unfold enter. by rewrite Hv. }
  assert (Hcr : control_run W self (S k) (set_proc (Running None) s) =
                (set_ready_event true
                   (set_stdout
                      (stdout s ++ [error_line (NameError "robot_ip")])%list
                      (set_proc (Running None) s)),
                 Ret (Raise (NameError "robot_ip")))).
  { unfold control_run. simpl proc. cbv iota.
    unfold run, guarded, try_finally, try_except.
    rewrite (bind_raise _ _ _ _ _ He). simpl. unfold cleanup.
    by rewrite Hv. }
  rewrite (bind_ret _ _ _ _ _ Hcr). cbv beta. rewrite Hv. simpl when.
  destruct t; (split_and!; try done); simpl;
    rewrite ?elem_of_app, !list_elem_of_singleton; auto.
Qed.

Lemma verbose_launch_dies_witness :
  verbose arm_verbose = true ∧
  proc (__init__ calm arm_verbose (boot 0)).1 = NotStarted ∧
  (start calm arm_verbose true 4 ExitsLater
     (__init__ calm arm_verbose (boot 0)).1).2 = Ret tt ∧
  error_line (NameError "robot_ip") ∈
    stdout (start calm arm_verbose true 4 ExitsLater
              (__init__ calm arm_verbose (boot 0)).1).1.
Proof.
  split; [reflexivity |]. split; [reflexivity |].
  pose proof (verbose_launch_dies calm arm_verbose 3 ExitsLater
                (__init__ calm arm_verbose (boot 0)).1 eq_refl eq_refl) as H.
  exact (conj (proj1 H) (proj1 (proj2 H))).
Defined.

(** X8: a controller configured with frequency 0 never enters its loop.
    [run] moves the robot to [joints_init] if one is given, then fails on
    [1. / self.frequency]; the handler prints the error, the finally block
    sets the readiness event, and [run] returns.  No snapshot is published. *)
Theorem zero_frequency_run_exits W self fuel s :
  Qeq_bool (frequency self) 0 = true → verbose self = false →
  w_fault W (n_calls s) = None →
  (run W self fuel s).2 = Ret tt ∧
  sent (run W self fuel s).1 =
    (sent s ++ match joints_init self with
               | Some joints => [(joints, 1000%Z)]
               | None => []
               end)%list ∧
  stdout (run W self fuel s).1 =
    (stdout s ++ [error_line ZeroDivisionError])%list ∧
  ring_buffer (run W self fuel s).1 = ring_buffer s ∧
  ready_event (run W self fuel s).1 = true.
Proof.
  intros Hf Hv Hk.
  assert (∃ s1, enter W self s = (s1, Raise ZeroDivisionError) ∧
                     sent s1 = (sent s ++ match joints_init self with
                                          | Some joints => [(joints, 1000%Z)]
                                          | None => []
                                          end)%list ∧
                     stdout s1 = stdout s ∧ ring_buffer s1 = ring_buffer s)
    as (s1 & He & Hse & Hso & Hrb).
  { unfold enter. rewrite Hv. simpl when.
    rewrite (bind_ret _ _ _ _ _ eq_refl). cbv beta.
    destruct (joints_init self) as [joints|].
    - rewrite (bind_ret _ _ _ _ _ (write_angles_ok W joints 1000 s Hk)).
      cbv beta. unfold float_div. rewrite Hf. by eexists.
    - rewrite (bind_ret _ _ _ _ _ eq_refl). cbv beta.
      unfold float_div. rewrite Hf. eexists. split; [reflexivity |].
      by rewrite app_nil_r. }
  unfold run, guarded, try_finally, try_except.
  rewrite (bind_raise _ _ _ _ _ He). simpl. unfold cleanup. rewrite Hv.
  simpl. by rewrite Hse, Hso, Hrb.
Qed.

Lemma zero_frequency_run_exits_witness :
  Qeq_bool (frequency arm_0hz) 0 = true ∧ verbose arm_0hz = false ∧
  w_fault calm (n_calls (launched calm arm_0hz)) = None ∧
  (run calm arm_0hz 5 (launched calm arm_0hz)).2 = Ret tt ∧
  sent (run calm arm_0hz 5 (launched calm arm_0hz)).1 =
    (sent (launched calm arm_0hz) ++
     match joints_init arm_0hz with
     | Some joints => [(joints, 1000%Z)]
     | None => []
     end)%list ∧
  stdout (run calm arm_0hz 5 (launched calm arm_0hz)).1 =
    (stdout (launched calm arm_0hz) ++ [error_line ZeroDivisionError])%list ∧
  ring_buffer (run calm arm_0hz 5 (launched calm arm_0hz)).1 =
    ring_buffer (launched calm arm_0hz) ∧
  ready_event (run calm arm_0hz 5 (launched calm arm_0hz)).1 = true.
Proof.
  split; [reflexivity |]. split; [reflexivity |]. split; [reflexivity |].
  exact (zero_frequency_run_exits calm arm_0hz 5 (launched calm arm_0hz)
           eq_refl eq_refl eq_refl).
Defined.

(** ** More on the command methods *)

(** X9: [servoL] returns normally exactly when the process is alive, the
    frequency is not zero, the duration is at least [1 / frequency], the
    pose has six components and the queue has room; and then it has appended
    one command to the queue and changed nothing else. *)
Theorem servoL_returns_iff W self pose x s :
  ((servoL W self pose x s).2 = Ret tt ↔ servoL_ok self pose x s = true) ∧
  (servoL_ok self pose x s = true →
   length (input_queue (servoL W self pose x s).1) =
     S (length (input_queue s)) ∧
   sent (servoL W self pose x s).1 = sent s ∧
   proc (servoL W self pose x s).1 = proc s ∧
   clock (servoL W self pose x s).1 = clock s).
Proof.
  unfold servoL_ok, servoL, is_alive, float_div, input_queue_put.
  unfold mbind, Py_bind, bind. simpl.
  destruct (proc s) eqn:Hp; simpl; try (split; [split |]; done).
  destruct (Qeq_bool (frequency self) 0); simpl; try (split; [split |]; done).
  destruct (Qle_bool (1 / frequency self) x); simpl;
    try (split; [split |]; done).
  destruct (bool_decide (length pose = 6%nat)); simpl;
    try (split; [split |]; done).
  destruct (decide (length (input_queue s) < buffer_size)%nat) as [Hlt | Hge].
  - rewrite (bool_decide_eq_true_2 _ Hlt).
    rewrite bool_decide_eq_false_2 by lia. simpl.
    split; [done |]. intros _. rewrite length_app. simpl.
    split_and!; try done; lia.
  - rewrite (bool_decide_eq_false_2 _ Hge).
    rewrite bool_decide_eq_true_2 by lia. simpl.
    split; [split |]; done.
Qed.

(** X10: [schedule_waypoint] returns normally exactly when the target time
    is after [time.time()], the pose has six components and the queue has
    room.  Unlike [servoL] it does not ask whether the control process is
    alive: it also queues commands for a process that was never started or
    has exited. *)
Theorem schedule_waypoint_returns_iff W pose x s :
  ((schedule_waypoint W pose x s).2 = Ret tt ↔
     schedule_waypoint_ok W pose x s = true) ∧
  (schedule_waypoint_ok W pose x s = true →
   length (input_queue (schedule_waypoint W pose x s).1) =
     S (length (input_queue s)) ∧
   proc (schedule_waypoint W pose x s).1 = proc s).
Proof.
  unfold schedule_waypoint_ok, schedule_waypoint, time_time, input_queue_put.
  unfold mbind, Py_bind, bind. simpl.
  destruct (Qle_bool x (clock s + w_wall_offset W)); simpl;
    try (split; [split |]; done).
  destruct (bool_decide (length pose = 6%nat)); simpl;
    try (split; [split |]; done).
  destruct (decide (length (input_queue s) < buffer_size)%nat) as [Hlt | Hge].
  - rewrite (bool_decide_eq_true_2 _ Hlt).
    rewrite bool_decide_eq_false_2 by lia. simpl.
    split; [done |]. intros _. rewrite length_app. simpl.
    split; [lia | done].
  - rewrite (bool_decide_eq_false_2 _ Hge).
    rewrite bool_decide_eq_true_2 by lia. simpl.
    split; [split |]; done.
Qed.

(** * Properties of the teleoperation loop *)

(** ** Key presses *)

Lemma on_key_stop O st e :
  Demo.stop (Demo.on_key O st e) =
    Demo.stop st || bool_decide (e = Demo.KeyCode "q").
Proof.
  unfold Demo.on_key.
  destruct (bool_decide (e = Demo.KeyCode "q")); simpl;
    [by rewrite orb_true_r |].
  rewrite orb_false_r.
  repeat (case_bool_decide; simpl; try done).
  by destruct (Demo.confirm O (Demo.confirms st)).
Qed.

(** What handling a key leaves alone. *)
Lemma on_key_frame O st e :
  Demo.dt (Demo.on_key O st e) = Demo.dt st ∧
  Demo.command_latency (Demo.on_key O st e) = Demo.command_latency st ∧
  Demo.t_start (Demo.on_key O st e) = Demo.t_start st ∧
  Demo.iter_idx (Demo.on_key O st e) = Demo.iter_idx st ∧
  Demo.target_pose (Demo.on_key O st e) = Demo.target_pose st ∧
  Demo.exec_actions (Demo.trace (Demo.on_key O st e)) =
    Demo.exec_actions (Demo.trace st) ∧
  Demo.waits (Demo.trace (Demo.on_key O st e)) = Demo.waits (Demo.trace st).
Proof.
  unfold Demo.on_key, Demo.exec_actions, Demo.waits.
  repeat (case_bool_decide; simpl; try done);
    try destruct (Demo.confirm O (Demo.confirms st)); simpl;
    rewrite ?omap_app, ?app_nil_r; done.
Qed.

Lemma keys_frame O evs st :
  Demo.dt (foldl (Demo.on_key O) st evs) = Demo.dt st ∧
  Demo.command_latency (foldl (Demo.on_key O) st evs) =
    Demo.command_latency st ∧
  Demo.t_start (foldl (Demo.on_key O) st evs) = Demo.t_start st ∧
  Demo.iter_idx (foldl (Demo.on_key O) st evs) = Demo.iter_idx st ∧
  Demo.target_pose (foldl (Demo.on_key O) st evs) = Demo.target_pose st ∧
  Demo.exec_actions (Demo.trace (foldl (Demo.on_key O) st evs)) =
    Demo.exec_actions (Demo.trace st) ∧
  Demo.waits (Demo.trace (foldl (Demo.on_key O) st evs)) =
    Demo.waits (Demo.trace st).
Proof.
  revert st. induction evs as [|e evs IH]; intros st; simpl; [done |].
  destruct (IH (Demo.on_key O st e)) as (-> & -> & -> & -> & -> & -> & ->).
  apply on_key_frame.
Qed.

(** After a batch of key presses [stop] is set exactly when it was set
    before or the batch contains the quit key. *)
Lemma keys_stop O evs st :
  Demo.stop (foldl (Demo.on_key O) st evs) =
    Demo.stop st || bool_decide (Demo.KeyCode "q" ∈ evs).
Proof.
  revert st. induction evs as [|e evs IH]; intros st; simpl.
  - by rewrite orb_false_r.
  - rewrite IH, on_key_stop, <- orb_assoc. f_equal.
    apply eq_true_iff_eq.
    rewrite orb_true_iff, !bool_decide_eq_true, elem_of_cons.
    split; (intros [Hq | Hq]; [left | right]); done.
Qed.

(** ** The pose update *)

Lemma accumulate_Some (cl tp : list Q) :
  (6 ≤ length cl)%nat → (6 ≤ length tp)%nat →
  Demo.accumulate cl tp =
    Some (zip_with Qplus (take 6 tp) (take 6 cl) ++ drop 6 tp)%list.
Proof.
  intros Hcl Htp.
  do 6 (destruct cl as [|? cl]; [simpl in Hcl; lia |]).
  do 6 (destruct tp as [|? tp]; [simpl in Htp; lia |]).
  reflexivity.
Qed.

Lemma accumulate_None (cl tp : list Q) :
  (length cl < 6)%nat ∨ (length tp < 6)%nat → Demo.accumulate cl tp = None.
Proof.
  intros [H | H].
  - do 6 (destruct cl as [|? cl];
          [by do 6 (try destruct tp as [|? tp]) |]).
    simpl in H. lia.
  - do 6 (destruct tp as [|? tp];
          [by do 6 (try destruct cl as [|? cl]) |]).
    simpl in H. lia.
Qed.

Lemma accumulate_lookup (cl tp tp' : list Q) :
  Demo.accumulate cl tp = Some tp' →
  (6 ≤ length cl)%nat ∧ (6 ≤ length tp)%nat ∧
  length tp' = length tp ∧
  (∀ j, (j < 6)%nat → tp' !! j = Some (nth j tp 0 + nth j cl 0)%Q) ∧
  (∀ j, (6 ≤ j)%nat → tp' !! j = tp !! j).
Proof.
  assert (Hdec : (6 ≤ length cl)%nat ∧ (6 ≤ length tp)%nat ∨
                 ((length cl < 6)%nat ∨ (length tp < 6)%nat)) by lia.
  destruct Hdec as [[Hcl Htp] | Hshort].
  - rewrite (accumulate_Some cl tp Hcl Htp). intros [= <-].
    split; [done |]. split; [done |].
    do 6 (destruct cl as [|? cl]; [simpl in Hcl; lia |]).
    do 6 (destruct tp as [|? tp]; [simpl in Htp; lia |]).
    split_and!; [done | |].
    + intros j Hj. by do 6 (destruct j as [|j]; [done |]); lia.
    + intros j Hj. by do 6 (destruct j as [|j]; [lia |]).
  - by rewrite (accumulate_None cl tp Hshort).
Qed.

(** X11: the six in-place additions go through exactly when the motion
    state and the target pose both have at least six components; then the
    first six components of the target have each grown by the matching
    component of the motion state, and everything else, the length
    included, is as before.  Otherwise the update is an IndexError. *)
Theorem accumulate_bounds (cl tp : list Q) :
  (is_Some (Demo.accumulate cl tp) ↔
     (6 ≤ length cl)%nat ∧ (6 ≤ length tp)%nat) ∧
  ∀ tp', Demo.accumulate cl tp = Some tp' →
    length tp' = length tp ∧
    (∀ j, (j < 6)%nat →
       tp' !! j = Some (nth j tp 0 + nth j cl 0)%Q) ∧
    (∀ j, (6 ≤ j)%nat → tp' !! j = tp !! j).
Proof.
  split.
  - split.
    + intros [tp' H]. by destruct (accumulate_lookup cl tp tp' H) as (? & ? & _).
    + intros [Hcl Htp]. rewrite (accumulate_Some cl tp Hcl Htp). eauto.
  - intros tp' H. by destruct (accumulate_lookup cl tp tp' H) as (_ & _ & ?).
Qed.

Lemma accumulate_bounds_witness :
  Demo.accumulate [1; 2; 3; 4; 5; 6; 7]%Q [10; 20; 30; 40; 50; 60]%Q =
    Some [11; 22; 33; 44; 55; 66]%Q ∧
  length [11; 22; 33; 44; 55; 66]%Q = length [10; 20; 30; 40; 50; 60]%Q.
Proof.
  split; [reflexivity |].
  exact (proj1 (proj2 (accumulate_bounds [1; 2; 3; 4; 5; 6; 7]%Q
                         [10; 20; 30; 40; 50; 60]%Q)
                  [11; 22; 33; 44; 55; 66]%Q eq_refl)).
Defined.

(** ** One iteration and many *)

Lemma body_effects O st :
  (6 ≤ length (Demo.motion_state O (Demo.iter_idx st)))%nat →
  (6 ≤ length (Demo.target_pose st))%nat →
  ∃ st',
    Demo.body O st = (st', Ret tt) ∧
    Demo.dt st' = Demo.dt st ∧
    Demo.command_latency st' = Demo.command_latency st ∧
    Demo.t_start st' = Demo.t_start st ∧
    Demo.iter_idx st' = S (Demo.iter_idx st) ∧
    Demo.stop st' =
      Demo.stop st ||
      bool_decide (Demo.KeyCode "q" ∈ Demo.press_events O (Demo.iter_idx st)) ∧
    Demo.accumulate (Demo.motion_state O (Demo.iter_idx st))
      (Demo.target_pose st) = Some (Demo.target_pose st') ∧
    (Demo.exec_actions (Demo.trace st')).*1 =
      ((Demo.exec_actions (Demo.trace st)).*1 ++ [Demo.target_pose st'])%list ∧
    Demo.waits (Demo.trace st') =
      (Demo.waits (Demo.trace st) ++
       Demo.deadlines st (Demo.iter_idx st))%list.
Proof.
  intros Hcl Htp. unfold Demo.body. cbv zeta.
  set (st1 := Demo.log [Demo.GetObs] st).
  set (st2 := foldl (Demo.on_key O) st1
                (Demo.press_events O (Demo.iter_idx st1))).
  destruct (keys_frame O (Demo.press_events O (Demo.iter_idx st1)) st1)
    as (Hdt & Hlat & Hts & Hit & Htg & Hex & Hwt).
  fold st2 in Hdt, Hlat, Hts, Hit, Htg, Hex, Hwt.
  assert (Hstop : Demo.stop st2 =
                  Demo.stop st ||
                  bool_decide (Demo.KeyCode "q" ∈
                               Demo.press_events O (Demo.iter_idx st)))
    by exact (keys_stop O (Demo.press_events O (Demo.iter_idx st1)) st1).
  cbn [Demo.iter_idx Demo.target_pose Demo.log].
  rewrite Hit, Htg. cbn [Demo.iter_idx Demo.target_pose Demo.log st1].
  rewrite (accumulate_Some _ _ Hcl Htp).
  eexists. split; [reflexivity |].
  cbn [Demo.dt Demo.command_latency Demo.t_start Demo.iter_idx Demo.stop
       Demo.target_pose Demo.trace Demo.log Demo.set_iter_idx
       Demo.set_target_pose Demo.set_reads].
  rewrite Hdt, Hlat, Hts, Hit, Hstop.
  split_and!; try done.
  - unfold Demo.exec_actions in *. rewrite !omap_app, Hex.
    unfold st1. cbn [Demo.trace Demo.log]. rewrite omap_app. simpl.
    by rewrite !app_nil_r, fmap_app.
  - unfold Demo.waits in *. rewrite !omap_app, Hwt.
    unfold st1. cbn [Demo.trace Demo.log]. rewrite omap_app. simpl.
    by rewrite !app_nil_r, <- app_assoc.
Qed.

Lemma body_completes O st : (Demo.body O st).2 ≠ Yield.
Proof. unfold Demo.body. cbv zeta. by case_match. Qed.

(** Fuel adds up. *)
Lemma while_not_stop_add O n k st :
  Demo.while_not_stop O (n + k) st =
    match Demo.while_not_stop O n st with
    | (st', Yield) => Demo.while_not_stop O k st'
    | r => r
    end.
Proof.
  revert st. induction n as [|n IH]; intros st; simpl.
  - destruct (Demo.stop st) eqn:Hs; [| done].
    destruct k; simpl; by rewrite Hs.
  - destruct (Demo.stop st); [done |].
    pose proof (body_completes O st) as Hb.
    destruct (Demo.body O st) as [st1 [[]|e|]]; [apply IH | done | done].
Qed.

(** [n] iterations during which the quit key is not pressed and every
    motion state has its six components. *)
Lemma teleop_effects O n st :
  Demo.stop st = false →
  (∀ i, (Demo.iter_idx st ≤ i < Demo.iter_idx st + n)%nat →
        (Demo.KeyCode "q" ∉ Demo.press_events O i) ∧
        (6 ≤ length (Demo.motion_state O i))%nat) →
  (6 ≤ length (Demo.target_pose st))%nat →
  ∃ st',
    Demo.while_not_stop O n st = (st', Yield) ∧
    Demo.iter_idx st' = (Demo.iter_idx st + n)%nat ∧
    Demo.stop st' = false ∧
    Demo.dt st' = Demo.dt st ∧
    Demo.command_latency st' = Demo.command_latency st ∧
    Demo.t_start st' = Demo.t_start st ∧
    length (Demo.target_pose st') = length (Demo.target_pose st) ∧
    length (Demo.exec_actions (Demo.trace st')) =
      (length (Demo.exec_actions (Demo.trace st)) + n)%nat ∧
    Demo.waits (Demo.trace st') =
      (Demo.waits (Demo.trace st) ++
       flat_map (Demo.deadlines st) (seq (Demo.iter_idx st) n))%list ∧
    ∀ j, (j < 6)%nat →
      (nth j (Demo.target_pose st') 0 ==
         nth j (Demo.target_pose st) 0
         + Demo.motion_sum O j (Demo.iter_idx st) n)%Q.
Proof.
  revert st. induction n as [|n IH]; intros st Hs Hev Htp; simpl.
  - rewrite Hs. exists st. rewrite Nat.add_0_r, app_nil_r.
    split_and!; try done. intros j _. lra.
  - rewrite Hs.
    destruct (Hev (Demo.iter_idx st) ltac:(lia)) as [Hq Hcl].
    destruct (body_effects O st Hcl Htp)
      as (st1 & -> & Hdt & Hlat & Hts & Hit & Hst & Hacc & Hex & Hwt).
    destruct (accumulate_lookup _ _ _ Hacc) as (_ & _ & Hlen & Hlk & _).
    rewrite Hs, (bool_decide_eq_false_2 _ Hq) in Hst.
    destruct (IH st1 Hst) as (st' & -> & Hit' & Hs' & Hdt' & Hlat' & Hts'
                              & Hlen' & Hex' & Hwt' & Hsum).
    { intros i Hi. apply Hev. rewrite Hit in Hi. lia. }
    { by rewrite Hlen. }
    exists st'. split_and!; try done; try congruence.
    + rewrite Hit', Hit. lia.
    + rewrite Hex'. apply (f_equal length) in Hex.
      repeat rewrite ?length_fmap, ?length_app in Hex. simpl in Hex. lia.
    + rewrite Hwt', Hwt, <- app_assoc, Hit. f_equal.
      unfold Demo.deadlines at 1. simpl. do 2 f_equal.
      apply flat_map_ext. intros i. unfold Demo.deadlines.
      by rewrite Hdt, Hlat, Hts.
    + intros j Hj. rewrite (Hsum j Hj), Hit.
      rewrite (nth_lookup_Some _ _ 0%Q _ (Hlk j Hj)). lra.
Qed.

Lemma on_key_set_stop O st e :
  Demo.on_key O (Demo.set_stop true st) e =
    Demo.set_stop true (Demo.on_key O st e).
Proof.
  unfold Demo.on_key.
  repeat (case_bool_decide; [done |]).
  case_bool_decide; [| by repeat (case_bool_decide; [done |])].
  cbn [Demo.confirms Demo.set_stop].
  by destruct (Demo.confirm O (Demo.confirms st)).
Qed.

Lemma keys_set_stop O evs st :
  foldl (Demo.on_key O) (Demo.set_stop true st) evs =
    Demo.set_stop true (foldl (Demo.on_key O) st evs).
Proof.
  revert st. induction evs as [|e evs IH]; intros st; simpl; [done |].
  by rewrite on_key_set_stop, IH.
Qed.

(** X12: the quit key is not a break.  Wherever 'q' stands in a batch of key
    presses, the keys after it are handled as if it had not been pressed:
    the outcome is that of the batch without it, with [stop] set. *)
Theorem quit_key_is_no_break O evs1 evs2 st :
  foldl (Demo.on_key O) st (evs1 ++ Demo.KeyCode "q" :: evs2) =
    Demo.set_stop true (foldl (Demo.on_key O) st (evs1 ++ evs2)).
Proof.
  rewrite !foldl_app. simpl.
  change (Demo.on_key O (foldl (Demo.on_key O) st evs1) (Demo.KeyCode "q"))
    with (Demo.set_stop true (foldl (Demo.on_key O) st evs1)).
  apply keys_set_stop.
Qed.


(** X14: the target pose is integrated open loop.  Over [n] iterations
    without the quit key each of its first six components has grown by the
    sum of that component of the motion states read in these iterations;
    its length is unchanged. *)
Theorem teleop_integrates_motion O n st :
  Demo.stop st = false →
  (∀ i, (Demo.iter_idx st ≤ i < Demo.iter_idx st + n)%nat →
        (Demo.KeyCode "q" ∉ Demo.press_events O i) ∧
        (6 ≤ length (Demo.motion_state O i))%nat) →
  (6 ≤ length (Demo.target_pose st))%nat →
  length (Demo.target_pose (Demo.while_not_stop O n st).1) =
    length (Demo.target_pose st) ∧
  ∀ j, (j < 6)%nat →
    (nth j (Demo.target_pose (Demo.while_not_stop O n st).1) 0 ==
       nth j (Demo.target_pose st) 0
       + Demo.motion_sum O j (Demo.iter_idx st) n)%Q.
Proof.
  intros Hs Hev Htp.
  by destruct (teleop_effects O n st Hs Hev Htp)
    as (st' & -> & _ & _ & _ & _ & _ & Hlen & _ & _ & Hsum).
Qed.

(** X15: the iteration in which the quit key is pressed is still carried
    out in full.  If 'q' is first pressed in the iteration [m] steps ahead,
    the loop ends after that iteration, having commanded the robot once in
    every iteration, that one included. *)
Theorem teleop_quits_after_iteration O m fuel st :
  Demo.stop st = false →
  (∀ i, (Demo.iter_idx st ≤ i < Demo.iter_idx st + m)%nat →
        Demo.KeyCode "q" ∉ Demo.press_events O i) →
  Demo.KeyCode "q" ∈ Demo.press_events O (Demo.iter_idx st + m) →
  (∀ i, (Demo.iter_idx st ≤ i ≤ Demo.iter_idx st + m)%nat →
        (6 ≤ length (Demo.motion_state O i))%nat) →
  (6 ≤ length (Demo.target_pose st))%nat →
  (m < fuel)%nat →
  (Demo.while_not_stop O fuel st).2 = Ret tt ∧
  Demo.iter_idx (Demo.while_not_stop O fuel st).1 =
    S (Demo.iter_idx st + m) ∧
  length (Demo.exec_actions (Demo.trace (Demo.while_not_stop O fuel st).1)) =
    S (length (Demo.exec_actions (Demo.trace st)) + m).
Proof.
  intros Hs Hnq Hq Hcl Htp Hfuel.
  replace fuel with (m + S (fuel - S m))%nat by lia.
  rewrite while_not_stop_add.
  destruct (teleop_effects O m st Hs)
    as (st1 & -> & Hit & Hs1 & _ & _ & _ & Hlen & Hex & _); [| done |].
  { intros i Hi. split; [apply Hnq | apply Hcl]; lia. }
  simpl. rewrite Hs1.
  destruct (body_effects O st1)
    as (st2 & -> & _ & _ & _ & Hit2 & Hs2 & _ & Hex2 & _).
  { rewrite Hit. apply Hcl. lia. }
  { by rewrite Hlen. }
  rewrite Hit, (bool_decide_eq_true_2 _ Hq), orb_true_r in Hs2.
  assert (Hend : Demo.while_not_stop O (fuel - S m) st2 = (st2, Ret tt))
    by (destruct (fuel - S m)%nat; simpl; by rewrite Hs2).
  rewrite Hend. simpl. split_and!; [done | by rewrite Hit2, Hit |].
  apply (f_equal length) in Hex2.
  repeat rewrite ?length_fmap, ?length_app in Hex2. simpl in Hex2. lia.
Qed.

Lemma pilot_quiet i :
  (i < 2)%nat →
  (Demo.KeyCode "q" ∉ Demo.press_events Demo.pilot i) ∧
  (6 ≤ length (Demo.motion_state Demo.pilot i))%nat.
Proof.
  intros Hi. split; [| simpl; lia]. simpl.
  rewrite bool_decide_eq_false_2 by lia. apply not_elem_of_nil.
Qed.


Lemma teleop_integrates_motion_witness :
  Demo.stop Demo.fresh = false ∧
  length (Demo.target_pose (Demo.while_not_stop Demo.pilot 2 Demo.fresh).1) =
    length (Demo.target_pose Demo.fresh).
Proof.
  split; [reflexivity |].
  apply (proj1 (teleop_integrates_motion Demo.pilot 2 Demo.fresh eq_refl
                  (λ i Hi, pilot_quiet i ltac:(simpl in Hi; lia))
                  ltac:(simpl; lia))).
Defined.

Lemma teleop_quits_after_iteration_witness :
  Demo.stop Demo.fresh = false ∧
  Demo.KeyCode "q" ∈
    Demo.press_events Demo.pilot (Demo.iter_idx Demo.fresh + 2) ∧
  (Demo.while_not_stop Demo.pilot 9 Demo.fresh).2 = Ret tt ∧
  Demo.iter_idx (Demo.while_not_stop Demo.pilot 9 Demo.fresh).1 =
    S (Demo.iter_idx Demo.fresh + 2) ∧
  length (Demo.exec_actions
            (Demo.trace (Demo.while_not_stop Demo.pilot 9 Demo.fresh).1)) =
    S (length (Demo.exec_actions (Demo.trace Demo.fresh)) + 2).
Proof.
  assert (Hq : Demo.KeyCode "q" ∈
               Demo.press_events Demo.pilot (Demo.iter_idx Demo.fresh + 2)).
  { simpl. apply elem_of_cons. right. apply elem_of_cons. by left. }
  split; [reflexivity |]. split; [exact Hq |].
  apply (teleop_quits_after_iteration Demo.pilot 2 9 Demo.fresh eq_refl
           (λ i Hi, proj1 (pilot_quiet i ltac:(simpl in Hi; lia)))
           Hq
           (λ i Hi, ltac:(simpl; lia))
           ltac:(simpl; lia)
           ltac:(lia)).
Defined.

(** ** Errors *)

Lemma body_fails O st :
  Demo.accumulate (Demo.motion_state O (Demo.iter_idx st))
    (Demo.target_pose st) = None →
  ∃ st', Demo.body O st = (st', Raise IndexError) ∧
         Demo.exec_actions (Demo.trace st') =
           Demo.exec_actions (Demo.trace st).
Proof.
  intros Hacc. unfold Demo.body. cbv zeta.
  set (st1 := Demo.log [Demo.GetObs] st).
  destruct (keys_frame O (Demo.press_events O (Demo.iter_idx st1)) st1)
    as (_ & _ & _ & Hit & Htg & Hex & _).
  assert (Hacc' : Demo.accumulate
                    (Demo.motion_state O (Demo.iter_idx st1))
                    (Demo.target_pose st1) = None) by exact Hacc.
  cbn [Demo.iter_idx Demo.target_pose Demo.log].
  rewrite Hit, Htg, Hacc'. eexists. split; [reflexivity |].
  unfold Demo.exec_actions in *. cbn [Demo.trace Demo.log].
  rewrite omap_app, Hex. unfold st1. cbn [Demo.trace Demo.log].
  rewrite omap_app. simpl. by rewrite !app_nil_r.
Qed.

(** The block of the with statements when the pose update of iteration [m]
    fails. *)
Lemma session_fails O frequency latency robot_pose now m fuel tr :
  (∀ i, (i < m)%nat →
        (Demo.KeyCode "q" ∉ Demo.press_events O i) ∧
        (6 ≤ length (Demo.motion_state O i))%nat) →
  (length (Demo.motion_state O m) < 6)%nat →
  (6 ≤ length robot_pose)%nat → (m < fuel)%nat →
  ∃ tr',
    Demo.session O frequency latency robot_pose now fuel tr =
      (tr', Raise IndexError) ∧
    length (Demo.exec_actions tr') =
      (length (Demo.exec_actions tr) + m)%nat.
Proof.
  intros Hev Hshort Hpose Hfuel. unfold Demo.session. cbv zeta.
  replace fuel with (m + S (fuel - S m))%nat by lia.
  rewrite while_not_stop_add.
  match goal with
  | |- context [Demo.while_not_stop O m ?st0] =>
      destruct (teleop_effects O m st0 eq_refl)
        as (st1 & -> & Hit & Hs1 & _ & _ & _ & Hlen & Hex & _);
        [intros i Hi; apply Hev; simpl in Hi; lia | done |]
  end.
  simpl in Hit, Hlen, Hex. simpl Demo.while_not_stop. rewrite Hs1.
  destruct (body_fails O st1) as (st2 & -> & Hex2).
  { apply accumulate_None. left. by rewrite Hit. }
  eexists. split; [reflexivity |].
  rewrite Hex2, Hex. unfold Demo.exec_actions.
  rewrite omap_app. simpl. by rewrite app_nil_r.
Qed.

(** A with statement whose block raises and whose manager lets the
    exception pass, and one whose block or manager does not return. *)
Lemma with_passes O mgr block tr tr' e :
  Demo.on_enter O mgr = Ret tt →
  block (tr ++ [Demo.Enter mgr])%list = (tr', Raise e) →
  Demo.on_exit O mgr (Some e) = Ret false →
  Demo.with_ O mgr block tr =
    ((tr' ++ [Demo.Exit mgr (Some e)])%list, Raise e).
Proof. intros He Hb Hx. unfold Demo.with_. by rewrite He, Hb, Hx. Qed.

Lemma with_exit_blocks O mgr block tr tr' e :
  Demo.on_enter O mgr = Ret tt →
  block (tr ++ [Demo.Enter mgr])%list = (tr', Raise e) →
  Demo.on_exit O mgr (Some e) = Yield →
  Demo.with_ O mgr block tr =
    ((tr' ++ [Demo.Exit mgr (Some e)])%list, Yield).
Proof. intros He Hb Hx. unfold Demo.with_. by rewrite He, Hb, Hx. Qed.

Lemma with_blocked O mgr block tr tr' :
  Demo.on_enter O mgr = Ret tt →
  block (tr ++ [Demo.Enter mgr])%list = (tr', Yield) →
  Demo.with_ O mgr block tr = (tr', Yield).
Proof. intros He Hb. unfold Demo.with_. by rewrite He, Hb. Qed.

(** X16: the two ways [main] fails.  With frequency 0 the division
    [1/frequency] raises before the try statement is entered, so the
    ZeroDivisionError leaves [main] and nothing has been done.  An
    IndexError of the pose update inside the loop, from a motion state with
    fewer than six components in iteration [m], comes after exactly [m]
    commands to the robot and first goes through the [__exit__] of the four
    context managers, innermost first.  If each of them returns without
    taking the exception, the except clause prints it and [main] returns
    normally; if that of [RealEnv] does not return, neither does [main]. *)
Theorem main_error_paths O frequency latency robot_pose now m fuel :
  (Qeq_bool frequency 0 = true →
   Demo.main O frequency latency robot_pose now fuel =
     ([], Raise ZeroDivisionError)) ∧
  (Qeq_bool frequency 0 = false →
   (∀ mgr, Demo.on_enter O mgr = Ret tt) →
   (∀ i, (i < m)%nat →
         (Demo.KeyCode "q" ∉ Demo.press_events O i) ∧
         (6 ≤ length (Demo.motion_state O i))%nat) →
   (length (Demo.motion_state O m) < 6)%nat →
   (6 ≤ length robot_pose)%nat → (m < fuel)%nat →
   ((∀ mgr, Demo.on_exit O mgr (Some IndexError) = Ret false) →
    ∃ tr,
      Demo.main O frequency latency robot_pose now fuel =
        ((tr ++ [Demo.Exit Demo.RealEnv (Some IndexError);
                 Demo.Exit Demo.Control (Some IndexError);
                 Demo.Exit Demo.KeystrokeCounter (Some IndexError);
                 Demo.Exit Demo.SharedMemoryManager (Some IndexError);
                 Demo.PrintError IndexError])%list,
         Ret tt) ∧
      length (Demo.exec_actions tr) = m) ∧
   (Demo.on_exit O Demo.RealEnv (Some IndexError) = Yield →
    ∃ tr,
      Demo.main O frequency latency robot_pose now fuel =
        ((tr ++ [Demo.Exit Demo.RealEnv (Some IndexError)])%list, Yield) ∧
      length (Demo.exec_actions tr) = m)).
Proof.
  split; intros Hf; unfold Demo.main; rewrite Hf; [done |].
  intros Hent Hev Hshort Hpose Hfuel.
  destruct (session_fails O frequency latency robot_pose now m fuel
              [Demo.Enter Demo.SharedMemoryManager;
               Demo.Enter Demo.KeystrokeCounter;
               Demo.Enter Demo.Control; Demo.Enter Demo.RealEnv]
              Hev Hshort Hpose Hfuel) as (tr & Hses & Hlen).
  simpl in Hlen. split.
  - intros Hexit. exists tr. split; [| done].
    erewrite (with_passes O Demo.SharedMemoryManager); [| done | | done].
    2: { erewrite (with_passes O Demo.KeystrokeCounter); [| done | | done].
         2: { erewrite (with_passes O Demo.Control); [| done | | done].
              2: by apply with_passes.
              reflexivity. }
         reflexivity. }
    simpl. by rewrite <- !app_assoc.
  - intros Hblock. exists tr. split; [| done].
    erewrite (with_blocked O Demo.SharedMemoryManager); [done | done |].
    apply with_blocked; [done |]. apply with_blocked; [done |].
    by apply with_exit_blocks.
Qed.

Lemma main_error_paths_witness :
  Qeq_bool 10 0 = false ∧
  (length (Demo.motion_state Demo.short_stick 0) < 6)%nat ∧
  (∃ tr,
     Demo.main Demo.short_stick 10 (1 # 100) home 0 4 =
       ((tr ++ [Demo.Exit Demo.RealEnv (Some IndexError);
                Demo.Exit Demo.Control (Some IndexError);
                Demo.Exit Demo.KeystrokeCounter (Some IndexError);
                Demo.Exit Demo.SharedMemoryManager (Some IndexError);
                Demo.PrintError IndexError])%list,
        Ret tt) ∧
     length (Demo.exec_actions tr) = 0%nat) ∧
  Demo.on_exit Demo.stuck_env Demo.RealEnv (Some IndexError) = Yield ∧
  (∃ tr,
     Demo.main Demo.stuck_env 10 (1 # 100) home 0 4 =
       ((tr ++ [Demo.Exit Demo.RealEnv (Some IndexError)])%list, Yield) ∧
     length (Demo.exec_actions tr) = 0%nat).
Proof.
  assert (Hshort : (length (Demo.motion_state Demo.short_stick 0) < 6)%nat)
    by (simpl; lia).
  split; [reflexivity |]. split; [exact Hshort |]. split; [| split].
  - apply (proj1 (proj2 (main_error_paths Demo.short_stick 10 (1 # 100)
                           home 0 0 4)
                    eq_refl (λ _, eq_refl) (λ i Hi, ltac:(lia)) Hshort
                    ltac:(simpl; lia) ltac:(lia))
             (λ _, eq_refl)).
  - reflexivity.
  - apply (proj2 (proj2 (main_error_paths Demo.stuck_env 10 (1 # 100)
                           home 0 0 4)
                    eq_refl (λ _, eq_refl) (λ i Hi, ltac:(lia)) Hshort
                    ltac:(simpl; lia) ltac:(lia))
             eq_refl).
Defined.

(** * Further properties of the handle *)

(** X17: leaving the context manager after the control process has exited.
    [__exit__] puts its STOP command and returns at once, since the join has
    nothing to wait for; the command stays in the queue, which nobody drains
    any more. *)
Theorem exit_after_process_exit_returns W self k s o :
  proc s = Exited o → (length (input_queue s) < buffer_size)%nat →
  (__exit__ W self k s).2 = Ret tt ∧
  e_cmd <$> input_queue (__exit__ W self k s).1 =
    ((e_cmd <$> input_queue s) ++ [Command.value Command.STOP])%list ∧
  proc (__exit__ W self k s).1 = Exited o ∧
  clock (__exit__ W self k s).1 = clock s.
Proof.
  intros Hp Hlen. unfold __exit__, stop.
  assert (Hput : input_queue_put W
                   {| m_cmd := Command.value Command.STOP;
                      m_target_pose := None;
                      m_duration := None;
                      m_target_time := None |} s =
                 (set_n_put (S (n_put s))
                    (set_input_queue
                       (input_queue s ++
                        [fill (w_residue W (n_put s))
                           {| m_cmd := Command.value Command.STOP;
                              m_target_pose := None;
                              m_duration := None;
                              m_target_time := None |}])%list s),
                  Ret tt)).
  { unfold input_queue_put. by rewrite bool_decide_eq_false_2 by lia. }
  rewrite (bind_ret _ _ _ _ _ Hput). cbv beta.
  assert (Hcp : ∀ s1, proc s1 = Exited o →
                      control_process W self k s1 = (s1, Ret tt)).
  { intros s1 H1. unfold control_process. rewrite H1. by destruct k. }
  match goal with
  | |- context [mbind _ (control_process W self k) ?s1] =>
      rewrite (bind_ret _ _ _ _ _ (Hcp s1 Hp))
  end.
  cbv beta. unfold when, stop_wait, Process_join. simpl. rewrite Hp. simpl.
  split_and!; try done. by rewrite fmap_app.
Qed.

Lemma exit_after_process_exit_returns_witness :
  proc (control_process (faulty_at 2) arm 5 (launched (faulty_at 2) arm)).1 =
    Exited None ∧
  (length (input_queue
             (control_process (faulty_at 2) arm 5
                (launched (faulty_at 2) arm)).1) < buffer_size)%nat ∧
  (__exit__ (faulty_at 2) arm 3
     (control_process (faulty_at 2) arm 5 (launched (faulty_at 2) arm)).1).2 =
    Ret tt.
Proof.
  assert (Hp : proc (control_process (faulty_at 2) arm 5
                       (launched (faulty_at 2) arm)).1 = Exited None)
    by (vm_compute; reflexivity).
  assert (Hlen : (length (input_queue
                            (control_process (faulty_at 2) arm 5
                               (launched (faulty_at 2) arm)).1)
                  < buffer_size)%nat)
    by (vm_compute; lia).
  split; [exact Hp |]. split; [exact Hlen |].
  exact (proj1 (exit_after_process_exit_returns (faulty_at 2) arm 3 _ None
                  Hp Hlen)).
Defined.

(** X18: a robot that connects but fails its first read-back makes the
    constructor raise that exception to the caller: only the failure of
    [start_client] is turned into [exit(1)].  The connection has been
    opened by then and nothing is printed. *)
Theorem init_readback_fault_propagates W self s key keys e :
  w_start_client W = None → receive_keys self = key :: keys →
  w_fault W (n_calls s) = Some e →
  (__init__ W self s).2 = Raise e ∧
  net (__init__ W self s).1 = (net s ++ [Connect (robot_ip self) 5001])%list ∧
  stdout (__init__ W self s).1 = stdout s.
Proof.
  intros Hc Hkeys Hf. unfold __init__.
  rewrite (bind_ret _ _ _ _ _ eq_refl). cbv beta.
  assert (Hst : try_except (start_client W self)
                  (λ e, print ("Failed to start elephant client: "
                               ++ exn_str e);; exit 1)
                  (set_input_queue [] s) =
                (set_net (net s ++ [Connect (robot_ip self) 5001])
                   (set_input_queue [] s), Ret tt)).
  { unfold try_except, start_client. by rewrite Hc. }
  rewrite (bind_ret _ _ _ _ _ Hst). cbv beta. rewrite Hkeys. simpl for_each.
  assert (Hga : (get_angles W;; mret tt)
                  (set_net (net s ++ [Connect (robot_ip self) 5001])
                     (set_input_queue [] s)) =
                (set_n_calls (S (n_calls s))
                   (set_clock (λ t, t + w_latency W (n_calls s))%Q
                      (set_net (net s ++ [Connect (robot_ip self) 5001])
                         (set_input_queue [] s))), Raise e)).
  { by rewrite (bind_raise _ _ _ _ _
                  (get_angles_fault W
                     (set_net (net s ++ [Connect (robot_ip self) 5001])
                        (set_input_queue [] s)) e Hf)). }
  rewrite (bind_raise _ _ _ _ _ (bind_raise _ _ _ _ _ Hga)).
  by split_and!.
Qed.

Lemma init_readback_fault_propagates_witness :
  w_start_client arm_deaf = None ∧
  receive_keys arm = ["ActualTCPPose"] ∧
  w_fault arm_deaf (n_calls (boot 0)) = Some (ClientError "timed out") ∧
  (__init__ arm_deaf arm (boot 0)).2 = Raise (ClientError "timed out").
Proof.
  split; [reflexivity |]. split; [reflexivity |]. split; [reflexivity |].
  exact (proj1 (init_readback_fault_propagates arm_deaf arm (boot 0)
                  "ActualTCPPose" [] (ClientError "timed out")
                  eq_refl eq_refl eq_refl)).
Defined.

(** * Further properties of the key handling *)

Lemma on_key_recording O st e :
  e ≠ Demo.Key_backspace →
  Demo.is_recording (Demo.on_key O st e) =
    if bool_decide (e = Demo.KeyCode "c") then true
    else if bool_decide (e = Demo.KeyCode "s") then false
    else Demo.is_recording st.
Proof.
  intros Hb. unfold Demo.on_key.
  repeat case_bool_decide; simplify_eq; done.
Qed.

(** X19: of the keys that start and stop a recording, the last one of a
    batch decides.  After a batch without backspace [is_recording] is true
    if the last 'c' or 's' in it is a 'c', false if it is an 's', and
    unchanged if the batch has neither; no other key touches it. *)
Theorem last_recording_key_wins O evs st :
  Demo.Key_backspace ∉ evs →
  Demo.is_recording (foldl (Demo.on_key O) st evs) =
    match last (filter (λ e, e = Demo.KeyCode "c" ∨ e = Demo.KeyCode "s") evs)
    with
    | Some e => bool_decide (e = Demo.KeyCode "c")
    | None => Demo.is_recording st
    end.
Proof.
  induction evs as [|e evs IH] using rev_ind; intros Hb; [done |].
  rewrite foldl_app. simpl. rewrite filter_app.
  rewrite on_key_recording
    by (intros ->; apply Hb, elem_of_app; right;
        by apply list_elem_of_singleton).
  rewrite IH by (intros H; apply Hb, elem_of_app; by left).
  destruct (decide (e = Demo.KeyCode "c")) as [-> | Hc].
  { rewrite filter_cons_True by by left.
    rewrite filter_nil, last_snoc. by rewrite !bool_decide_eq_true_2. }
  rewrite (bool_decide_eq_false_2 _ Hc).
  destruct (decide (e = Demo.KeyCode "s")) as [-> | Hs].
  { rewrite filter_cons_True by by right.
    rewrite filter_nil, last_snoc. by rewrite bool_decide_eq_true_2. }
  rewrite (bool_decide_eq_false_2 _ Hs).
  rewrite filter_cons_False by by intros [? | ?].
  by rewrite filter_nil, app_nil_r.
Qed.

Lemma last_recording_key_wins_witness :
  (Demo.Key_backspace ∉
     [Demo.KeyCode "c"; Demo.KeyCode "q"; Demo.KeyCode "s"; Demo.Key_space]) ∧
  Demo.is_recording
    (foldl (Demo.on_key Demo.pilot) Demo.fresh
       [Demo.KeyCode "c"; Demo.KeyCode "q"; Demo.KeyCode "s"; Demo.Key_space]) =
    false.
Proof.
  assert (Hb : Demo.Key_backspace ∉
               [Demo.KeyCode "c"; Demo.KeyCode "q"; Demo.KeyCode "s";
                Demo.Key_space]).
  { intros H. repeat (apply elem_of_cons in H as [H | H]; [done |]).
    by apply elem_of_nil in H. }
  split; [exact Hb |].
  exact (last_recording_key_wins Demo.pilot
           [Demo.KeyCode "c"; Demo.KeyCode "q"; Demo.KeyCode "s";
            Demo.Key_space] Demo.fresh Hb).
Defined.



Lemma servoL_returns_iff_witness :
  servoL_ok arm pose_b (1 # 10) (pending []) = true ∧
  length (input_queue (servoL calm arm pose_b (1 # 10) (pending [])).1) =
    S (length (input_queue (pending []))).
Proof.
  split; [reflexivity |].
  exact (proj1 (proj2 (servoL_returns_iff calm arm pose_b (1 # 10) (pending []))
                  eq_refl)).
Defined.

Lemma schedule_waypoint_returns_iff_witness :
  schedule_waypoint_ok calm pose_b 5 (boot 0) = true ∧
  length (input_queue (schedule_waypoint calm pose_b 5 (boot 0)).1) =
    S (length (input_queue (boot 0))).
Proof.
  split; [reflexivity |].
  exact (proj1 (proj2 (schedule_waypoint_returns_iff calm pose_b 5 (boot 0))
                  eq_refl)).
Defined.
